(** * Waiver intake: the submission pipeline of bat-waiver-app

    A shallow embedding of
    - [src/app/api/waiver/route.ts]: [dataUrlToBytes], [sendAftercareEmail]
      and the [POST] handler;
    - [src/app/waiver/page.tsx]: the signature pad ([resize], [clear], the
      pointer handlers), [hasAnyInk], [fileToDataURL] and the payload that
      [handleSubmit] assembles.

    Conventions.  A JavaScript string is a Stdlib [string] (code units are
    taken at eight bits), a [Uint8Array] is a [list byte], a parsed JSON
    object is a [gmap string json], [undefined] is [None].  Everything the
    handler obtains from outside (clock, storage, database, mail API,
    process environment) is a field of the record [world]; everything it
    does to the outside is an [event] of its trace. *)

From Stdlib Require Import ZArith QArith Qround Qminmax String Ascii List Lia.
From Stdlib.Strings Require Import Byte.
From Stdlib Require DecimalString.
From stdpp Require Import gmap strings list fin_maps.

Local Open Scope string_scope.
Local Open Scope list_scope.
Local Open Scope Z_scope.

(** ** JavaScript string primitives used by the sources *)

Module Js.

(** [s.startsWith(p)] *)
Definition startsWith (s p : string) : bool := String.prefix p s.

(** [s.split(sep)] for a one-character separator: never empty, the pieces
    between consecutive separators. *)
Fixpoint split (sep : ascii) (s : string) : list string :=
  match s with
  | EmptyString => [EmptyString]
  | String c s' =>
      if Ascii.eqb c sep then EmptyString :: split sep s'
      else match split sep s' with
           | [] => [String c EmptyString]
           | piece :: pieces => String c piece :: pieces
           end
  end.

(** [s.indexOf(c)] for a one-character needle: [-1] when absent. *)
Fixpoint indexOf (c : ascii) (s : string) : Z :=
  match s with
  | EmptyString => -1
  | String d s' =>
      if Ascii.eqb d c then 0
      else let r := indexOf c s' in if r <? 0 then -1 else r + 1
  end.

(** [s.slice(a, b)]: negative positions count from the end, both are
    clamped to the string, an empty range gives the empty string. *)
Definition slice (s : string) (a b : Z) : string :=
  let len := Z.of_nat (String.length s) in
  let from := if a <? 0 then Z.max (len + a) 0 else Z.min a len in
  let to := if b <? 0 then Z.max (len + b) 0 else Z.min b len in
  String.substring (Z.to_nat from) (Z.to_nat (Z.max (to - from) 0)) s.

(** White space as [trim] and the regular-expression class [\s] see it,
    among eight-bit code units. *)
Definition is_space (c : ascii) : bool :=
  let n := N_of_ascii c in
  ((9 <=? n) && (n <=? 13) || (n =? 32) || (n =? 160))%N.

Fixpoint trimStart (s : string) : string :=
  match s with
  | EmptyString => EmptyString
  | String c s' => if is_space c then trimStart s' else s
  end.

Definition rev_string (s : string) : string :=
  string_of_list_ascii (rev (list_ascii_of_string s)).

Definition trimEnd (s : string) : string :=
  rev_string (trimStart (rev_string s)).

(** [s.trim()] *)
Definition trim (s : string) : string := trimEnd (trimStart s).

(** [s.split(/\s+/)[0]]: the characters before the first run of white
    space (all of [s] when it has none, the empty string when [s] starts
    with white space). *)
Fixpoint first_token (s : string) : string :=
  match s with
  | EmptyString => EmptyString
  | String c s' => if is_space c then EmptyString else String c (first_token s')
  end.

(** [s.includes(c)] for a one-character needle. *)
Fixpoint includes (c : ascii) (s : string) : bool :=
  match s with
  | EmptyString => false
  | String d s' => Ascii.eqb d c || includes c s'
  end.

(** Decimal rendering of an integer, as a template literal gives it. *)
Definition of_int (z : Z) : string :=
  DecimalString.NilEmpty.string_of_int (Z.to_int z).

End Js.

(** ** Base64: [Buffer.toString('base64')] and [atob] *)

Module Base64.

Definition alphabet : list ascii :=
  list_ascii_of_string
    "ABCDEFGHIJKLMNOPQRSTUVWXYZabcdefghijklmnopqrstuvwxyz0123456789+/".

Definition char_of_sextet (n : Z) : ascii :=
  nth (Z.to_nat n) alphabet "A"%char.

Fixpoint position (c : ascii) (l : list ascii) (i : Z) : option Z :=
  match l with
  | [] => None
  | d :: l' => if Ascii.eqb d c then Some i else position c l' (i + 1)
  end.

Definition sextet_of_char (c : ascii) : option Z := position c alphabet 0.

Definition byte_val (b : byte) : Z := Z.of_N (Byte.to_N b).

Definition byte_of_val (z : Z) : byte :=
  match Byte.of_N (Z.to_N z) with Some b => b | None => x00 end.

(** RFC 4648: every three octets give four six-bit groups; one or two
    trailing octets give two or three groups, zero bits filling the
    last. *)
Fixpoint sextets (bs : list Z) : list Z :=
  match bs with
  | a :: b :: c :: rest =>
      a / 4 :: (a mod 4) * 16 + b / 16 :: (b mod 16) * 4 + c / 64 :: c mod 64
        :: sextets rest
  | [a; b] => [a / 4; (a mod 4) * 16 + b / 16; (b mod 16) * 4]
  | [a] => [a / 4; (a mod 4) * 16]
  | [] => []
  end.

Definition padding (n : nat) : list ascii :=
  match (n mod 3)%nat with
  | 1%nat => ["="; "="]%char
  | 2%nat => ["="]%char
  | _ => []
  end.

Definition encode_chars (buf : list byte) : list ascii :=
  map char_of_sextet (sextets (map byte_val buf)) ++ padding (length buf).

(** [Buffer.from(buf).toString('base64')] *)
Definition toString_base64 (buf : list byte) : string :=
  string_of_list_ascii (encode_chars buf).

(** ASCII white space of the forgiving decoder: TAB, LF, FF, CR, SPACE. *)
Definition is_ascii_whitespace (c : ascii) : bool :=
  let n := N_of_ascii c in
  ((n =? 9) || (n =? 10) || (n =? 12) || (n =? 13) || (n =? 32))%N.

(** One or two trailing [=] are removed. *)
Definition strip_padding (d : list ascii) : list ascii :=
  match rev d with
  | c1 :: r1 =>
      if Ascii.eqb c1 "=" then
        match r1 with
        | c2 :: r2 => if Ascii.eqb c2 "=" then rev r2 else rev r1
        | [] => rev r1
        end
      else d
  | [] => d
  end.

Fixpoint all_sextets (d : list ascii) : option (list Z) :=
  match d with
  | [] => Some []
  | c :: d' =>
      match sextet_of_char c, all_sextets d' with
      | Some n, Some ns => Some (n :: ns)
      | _, _ => None
      end
  end.

(** The bit buffer of the decoder, four groups at a time: 24 bits are
    three octets; of 18 trailing bits the last two are dropped, of 12 the
    last four. *)
Fixpoint octets (ss : list Z) : list Z :=
  match ss with
  | s1 :: s2 :: s3 :: s4 :: rest =>
      s1 * 4 + s2 / 16 :: (s2 mod 16) * 16 + s3 / 4 :: (s3 mod 4) * 64 + s4
        :: octets rest
  | [s1; s2; s3] => [s1 * 4 + s2 / 16; (s2 mod 16) * 16 + s3 / 4]
  | [s1; s2] => [s1 * 4 + s2 / 16]
  | _ => []
  end.

Definition decode_chars (data : list ascii) : option (list byte) :=
  let d := List.filter (fun c => negb (is_ascii_whitespace c)) data in
  let d := if (length d mod 4 =? 0)%nat then strip_padding d else d in
  if (length d mod 4 =? 1)%nat then None
  else option_map (fun ss => map byte_of_val (octets ss)) (all_sextets d).

(** [atob(data)]: the forgiving-base64 decoder; [None] stands for the
    [InvalidCharacterError] it throws.  The result is a binary string,
    one character per octet. *)
Definition atob (data : string) : option string :=
  option_map string_of_list_byte (decode_chars (list_ascii_of_string data)).

End Base64.

(** ** JSON values, as [req.json()] yields them *)

(** Numbers are taken at the integers: the handler only tests a number for
    truth and interpolates it into a path, and a fraction passes both like a
    non-zero integer. *)
#[warnings="-register-all"]
Inductive json : Type :=
| JNull
| JBool (b : bool)
| JNum (z : Z)
| JStr (s : string)
| JArr (items : list json)
| JObj (fields : gmap string json).

(** [undefined] is [None]; a value read off the body is an [option json]. *)
Definition truthy (v : option json) : bool :=
  match v with
  | None | Some JNull => false
  | Some (JBool b) => b
  | Some (JNum z) => negb (z =? 0)
  | Some (JStr s) => negb (String.eqb s "")
  | Some (JArr _) | Some (JObj _) => true
  end.

(** [body?.k]: of the names the handler reads, none is a property of a
    string, number, boolean or array, so only objects answer. *)
Definition get (body : json) (k : string) : option json :=
  match body with
  | JObj fields => fields !! k
  | _ => None
  end.

(** [body.k = v] and [delete body.k] on the object the handler works on. *)
Definition set_field (body : json) (k : string) (v : json) : json :=
  match body with
  | JObj fields => JObj (<[k := v]> fields)
  | _ => body
  end.

Definition delete_field (body : json) (k : string) : json :=
  match body with
  | JObj fields => JObj (delete k fields)
  | _ => body
  end.

(** [a || b] and [a ?? null] *)
Definition or_else (a : option json) (b : json) : json :=
  match a with
  | Some v => if truthy a then v else b
  | None => b
  end.

Definition nullish (a : option json) : json :=
  match a with
  | Some v => v
  | None => JNull
  end.

(** The string a template literal interpolates for a value; [None] is the
    [TypeError] of an object that shadows [toString] with a JSON value. *)
Fixpoint toString (v : json) : option string :=
  match v with
  | JNull => Some "null"
  | JBool b => Some (if b then "true" else "false")
  | JNum z => Some (Js.of_int z)
  | JStr s => Some s
  | JObj fields =>
      match fields !! "toString" with
      | Some _ => None
      | None => Some "[object Object]"
      end
  | JArr items =>
      (fix join (l : list json) : option string :=
         match l with
         | [] => Some ""
         | x :: rest =>
             let sx := match x with JNull => Some "" | _ => toString x end in
             match sx, join rest with
             | Some a, Some b =>
                 Some (a +:+ (match rest with [] => "" | _ => "," end) +:+ b)
             | _, _ => None
             end
         end) items
  end.

(** ** Exceptions and promises *)

Inductive exn : Type :=
| TypeError (what : string)
| InvalidCharacterError
| Rejected (reason : string).

Inductive outcome (A : Type) : Type :=
| Returns (a : A)
| Throws (e : exn).
Arguments Returns {A} a.
Arguments Throws {A} e.

Inductive promise (A : Type) : Type :=
| Resolves (a : A)
| Rejects (reason : string).
Arguments Resolves {A} a.
Arguments Rejects {A} reason.

(** ** route.ts: [dataUrlToBytes] *)

Record decoded : Type := { bytes : list byte; mime : string }.

Definition dataUrlToBytes (dataUrl : option json) : outcome (option decoded) :=
  if negb (truthy dataUrl) then Returns None
  else match dataUrl with
       | Some (JStr s) =>
           if negb (Js.startsWith s "data:") then Returns None
           else
             let pieces := Js.split "," s in
             let meta := nth 0 pieces "" in
             let b64 := default "undefined" (pieces !! 1%nat) in
             let mime := Js.slice meta 5 (Js.indexOf ";" meta) in
             match Base64.atob b64 with
             | None => Throws InvalidCharacterError
             | Some bin =>
                 Returns (Some {| bytes := list_byte_of_string bin; mime := mime |})
             end
       | _ => Throws (TypeError "dataUrl.startsWith is not a function")
       end.

(** ** page.tsx: [fileToDataURL] *)

Record file : Type := { file_bytes : list byte; file_type : string }.

Definition fileToDataURL (f : option file) : option string :=
  match f with
  | None => None
  | Some f =>
      let b64 := Base64.toString_base64 (file_bytes f) in
      Some ("data:" +:+ file_type f +:+ ";base64," +:+ b64)
  end.

(** ** The handler's world and its trace *)

(** The error object of a failed insert, read as [error.message],
    [error.details], [error.hint]. *)
Record pg_error : Type := { message : json; details : json; hint : json }.

(** The answer of the mail API: [r.ok], [r.status], [r.text()]. *)
Record fetch_response : Type :=
  { r_ok : bool; r_status : Z; r_text : promise string }.

(** What the handler reads from outside.  Calls of the Supabase client
    settle the way [insert] is consumed in the handler: the promise rejects,
    or it resolves to a [{ data, error }] result whose [error] is [None] on
    success.  [upload] is asked by storage path. *)
Record world : Type :=
  { Date_now : Z;
    toISOString : string;
    upload : string → promise (option string);
    insert : gmap string json → promise (option pg_error);
    BREVO_API_KEY : option string;
    FROM_EMAIL : option string;
    REPLY_TO : option string;
    fetch : promise fetch_response }.

(** The request sent to [https://api.brevo.com/v3/smtp/email]; the HTML body
    is the fixed aftercare text around the greeting [Hi <first>]. *)
Record mail : Type :=
  { api_key : option string;
    sender_email : string;
    to_email : json;
    first : string;
    replyTo : option string }.

Inductive event : Type :=
| Upload (path : string) (content : list byte) (contentType : string)
| Insert (row : gmap string json)
| Fetch (m : mail)
| ConsoleError (label : string)
| ConsoleLog (label : string).

(** A computation leaves a trace and returns or throws. *)
Definition comp (A : Type) : Type := list event * outcome A.

Definition ret {A} (a : A) : comp A := ([], Returns a).
Definition throw {A} (e : exn) : comp A := ([], Throws e).
Definition emit (ev : event) : comp unit := ([ev], Returns tt).

Definition bind {A B} (m : comp A) (k : A → comp B) : comp B :=
  match m with
  | (t, Returns a) => let '(t', r) := k a in (t ++ t', r)
  | (t, Throws e) => (t, Throws e)
  end.

Definition lift {A} (o : outcome A) : comp A := ([], o).

(** [await p] *)
Definition await {A} (p : promise A) : comp A :=
  match p with
  | Resolves a => ret a
  | Rejects reason => throw (Rejected reason)
  end.

(** [try { m } catch (e) { h e }] where the handler itself does not throw. *)
Definition try_catch {A} (m : comp A) (h : exn → list event * A) : list event * A :=
  match m with
  | (t, Returns a) => (t, a)
  | (t, Throws e) => let '(t', a) := h e in (t ++ t', a)
  end.

#[export] Instance comp_ret : MRet comp := @ret.
#[export] Instance comp_bind : MBind comp := fun A B k m => bind m k.

(** [await Promise.all(ps)]: the results when every promise resolves, the
    first rejection otherwise. *)
Fixpoint Promise_all {A} (ps : list (promise A)) : comp (list A) :=
  match ps with
  | [] => ret []
  | p :: ps' => a ← await p; l ← Promise_all ps'; ret (a :: l)
  end.

(** ** route.ts: [sendAftercareEmail] *)

(** The characters before the first [>]; [None] when there is no [>]. *)
Fixpoint until_gt (s : string) : option string :=
  match s with
  | EmptyString => None
  | String c s' =>
      if Ascii.eqb c ">" then Some EmptyString
      else option_map (String c) (until_gt s')
  end.

(** [s.match(/<([^>]+)>/)?.[1]]: the first non-empty bracketed stretch. *)
Fixpoint match_angle (s : string) : option string :=
  match s with
  | EmptyString => None
  | String c s' =>
      if Ascii.eqb c "<" then
        match until_gt s' with
        | Some EmptyString => match_angle s'
        | Some inner => Some inner
        | None => None
        end
      else match_angle s'
  end.

(** [v || fallback] on a variable of the process environment *)
Definition env_or (v : option string) (fallback : string) : string :=
  match v with
  | Some s => if String.eqb s "" then fallback else s
  | None => fallback
  end.

Definition env_truthy (v : option string) : option string :=
  match v with
  | Some s => if String.eqb s "" then None else Some s
  | None => None
  end.

Definition sendAftercareEmail (w : world) (to : json) (name : option json)
  : comp unit :=
  let apiKey := BREVO_API_KEY w in
  let from := env_or (FROM_EMAIL w) "Broken Art Tattoo <no-reply@brokenarttattoo.com>" in
  let replyTo := env_truthy (REPLY_TO w) in
  first ← match or_else name (JStr "") with
          | JStr s =>
              let token := Js.first_token (Js.trim s) in
              ret (if String.eqb token "" then "there" else token)
          | _ => throw (TypeError "trim is not a function")
          end;
  let payload :=
    {| api_key := apiKey;
       sender_email := default from (match_angle from);
       to_email := to;
       first := first;
       replyTo := replyTo |} in
  emit (Fetch payload);;
  r ← await (fetch w);
  if negb (r_ok r) then
    _ ← await (r_text r);
    emit (ConsoleError "Brevo send error")
  else
    emit (ConsoleLog "Brevo send ok").

(** ** route.ts: the [POST] handler *)

Record response : Type := { status : Z; body_json : gmap string json }.

Definition NextResponse_json (fields : list (string * json)) (status : Z)
  : response :=
  {| status := status; body_json := list_to_map fields |}.

Definition resolve_waiver_id (w : world) (body : json) : json :=
  or_else (get body "waiver_id") (JStr ("BAT-" +:+ Js.of_int (Date_now w))).

Definition insertPayload (w : world) (waiver_id : json) (body : json)
  : gmap string json :=
  list_to_map
    [ ("waiver_id", waiver_id);
      ("client_name", nullish (get body "client_name"));
      ("email", nullish (get body "email"));
      ("phone", nullish (get body "phone"));
      ("dob", nullish (get body "dob"));
      ("procedure_type", nullish (get body "procedure_type"));
      ("procedure_site", nullish (get body "procedure_site"));
      ("signature_path", nullish (get body "signature_path"));
      ("id_photo_front_path", nullish (get body "id_photo_front_path"));
      ("send_aftercare", JBool (truthy (get body "send_aftercare")));
      ("timestamp_iso", JStr (toISOString w)) ].

(** The [TypeError] of interpolating an object that has no usable
    [toString]. *)
Definition type_error : exn := TypeError "Cannot convert object to primitive value".

(** [`waivers/${waiver_id}/${name}`] *)
Definition storage_path (waiver_id : json) (name : string) : comp string :=
  match toString waiver_id with
  | Some id => ret ("waivers/" +:+ id +:+ "/" +:+ name)
  | None => throw type_error
  end.

(** [supabase.storage.from("waivers").upload(path, bytes, { contentType,
    upsert: true })]: the call is issued now, its promise is settled later. *)
Definition storage_upload (w : world) (path : string) (content : list byte)
    (contentType : string) : comp (promise (option string)) :=
  emit (Upload path content contentType);; ret (upload w path).

(** The signature block, lines 85-96: the working body and the pending
    uploads after it. *)
Definition signature_step (w : world) (waiver_id body : json)
  : comp (json * list (promise (option string))) :=
  sig ← lift (dataUrlToBytes (get body "signature_png"));
  match sig with
  | Some sig =>
      path ← storage_path waiver_id "signature.png";
      p ← storage_upload w path (bytes sig) "image/png";
      ret (delete_field (set_field body "signature_path" (JStr path)) "signature_png",
           [p])
  | None => ret (body, [])
  end.

(** [mime.split("/")[1] || "png"] *)
Definition ext_of (mime : string) : string :=
  match Js.split "/" mime !! 1%nat with
  | Some e => if String.eqb e "" then "png" else e
  | None => "png"
  end.

(** The ID photo block, lines 98-110. *)
Definition id_front_step (w : world) (waiver_id body : json)
    (uploads : list (promise (option string)))
  : comp (json * list (promise (option string))) :=
  idFront ← lift (dataUrlToBytes (get body "id_photo_front"));
  match idFront with
  | Some idFront =>
      let ext := ext_of (mime idFront) in
      path ← storage_path waiver_id ("id_front." +:+ ext);
      p ← storage_upload w path (bytes idFront) (mime idFront);
      ret (delete_field (set_field body "id_photo_front_path" (JStr path)) "id_photo_front",
           uploads ++ [p])
  | None => ret (body, uploads)
  end.

(** The answers of lines 79, 132-135 and 143. *)
Definition missing_fields : response :=
  NextResponse_json
    [("ok", JBool false); ("error", JStr "Missing client_name or email")] 400.

Definition db_error_response (error : pg_error) : response :=
  NextResponse_json
    [("ok", JBool false); ("error", message error);
     ("details", details error); ("hint", hint error)] 500.

Definition ok_response (id : json) : response :=
  NextResponse_json [("ok", JBool true); ("waiver_id", id)] 200.

(** The mail step as the handler runs it, lines 139-141. *)
Definition mail_step (w : world) (body : json) : comp unit :=
  if truthy (get body "send_aftercare") && truthy (get body "email") then
    sendAftercareEmail w (nullish (get body "email")) (get body "client_name")
  else ret tt.

Definition POST_body (w : world) (req : promise json) : comp response :=
  body ← await req;
  let waiver_id := resolve_waiver_id w body in
  if negb (truthy (get body "client_name")) || negb (truthy (get body "email")) then
    ret missing_fields
  else
    '(body, uploads) ← signature_step w waiver_id body;
    '(body, uploads) ← id_front_step w waiver_id body uploads;
    _ ← Promise_all uploads;
    let row := insertPayload w waiver_id body in
    emit (Insert row);;
    result ← await (insert w row);
    match result with
    | Some error =>
        emit (ConsoleError "DB insert error");;
        ret (db_error_response error)
    | None =>
        mail_step w body;;
        ret (ok_response waiver_id)
    end.

(** The [catch] clause, lines 144-147. *)
Definition server_error : response :=
  NextResponse_json [("ok", JBool false); ("error", JStr "Server error")] 500.

Definition POST (w : world) (req : promise json) : list event * response :=
  try_catch (POST_body w req)
    (fun e => ([ConsoleError "Handler exception"], server_error)).

(** ** page.tsx: the signature pad *)

Record rgba : Type := { red : Z; green : Z; blue : Z; alpha : Z }.

Definition transparent : rgba := {| red := 0; green := 0; blue := 0; alpha := 0 |}.
Definition white : rgba := {| red := 255; green := 255; blue := 255; alpha := 255 |}.
Definition ink_colour : rgba := {| red := 17; green := 17; blue := 17; alpha := 255 |}.

(** The canvas element with its 2D context: the bitmap ([width] by [height]
    device pixels, [pixel x y] inside it), the scale of the current
    transform, and what [resize] reads from the page. *)
Record canvas : Type :=
  { width : Z;
    height : Z;
    pixel : Z → Z → rgba;
    scale : Q;
    parent_clientWidth : Z;
    devicePixelRatio : Q }.

(** [Math.max(1, window.devicePixelRatio || 1)] *)
Definition dpr_of (c : canvas) : Q :=
  let r := devicePixelRatio c in
  Qmax 1 (if Qeq_bool r 0 then 1 else r).

(** Source-over compositing of one channel pair: the alpha of the result. *)
Definition over_alpha (src dst : Z) : Z := src + dst * (255 - src) / 255.

(** [ctx.fillRect(x, y, w, h)] with an opaque fill style: the pixels whose
    square lies inside the transformed rectangle take the fill colour.
    (Pixels cut by an edge are blended by the rasteriser; the model leaves
    them alone, and none arises where [resize] calls it.) *)
Definition fillRect (c : canvas) (x y w h : Q) (style : rgba) : canvas :=
  let s := scale c in
  let inside (i j : Z) : bool :=
    Qle_bool (x * s) (inject_Z i) && Qle_bool (inject_Z (i + 1)) ((x + w) * s)
    && Qle_bool (y * s) (inject_Z j) && Qle_bool (inject_Z (j + 1)) ((y + h) * s) in
  {| width := width c; height := height c;
     pixel := fun i j => if inside i j then style else pixel c i j;
     scale := s;
     parent_clientWidth := parent_clientWidth c;
     devicePixelRatio := devicePixelRatio c |}.

(** [ctx.clearRect(0, 0, c.width, c.height)] under the identity transform *)
Definition clearRect_all (c : canvas) : canvas :=
  {| width := width c; height := height c;
     pixel := fun _ _ => transparent;
     scale := scale c;
     parent_clientWidth := parent_clientWidth c;
     devicePixelRatio := devicePixelRatio c |}.

(** Lines 130-149.  Assigning [c.width] and [c.height] resets the bitmap to
    transparent black; the transform becomes the scaling by [dpr]; the last
    statement paints the whole surface white. *)
Definition resize (c : canvas) : canvas :=
  let dpr := dpr_of c in
  let w := parent_clientWidth c in
  let h := 160 in
  let sized :=
    {| width := Qfloor (inject_Z w * dpr);
       height := Qfloor (inject_Z h * dpr);
       pixel := fun _ _ => transparent;
       scale := dpr;
       parent_clientWidth := parent_clientWidth c;
       devicePixelRatio := devicePixelRatio c |} in
  fillRect sized 0 0 (inject_Z w) (inject_Z h) white.

(** Lines 151-162 *)
Definition clear (c : canvas) : canvas := resize (clearRect_all c).

(** The pointer handlers, lines 186-205.  [coverage p q i j] is the opacity
    (0 to 255) the rasteriser gives pixel [(i, j)] for the round-capped line
    of width 2 from [p] to [q]. *)
Record pad : Type :=
  { surface : canvas; drawing : bool; lastX : Q; lastY : Q }.

Inductive pointer : Type :=
| PointerDown (x y : Q)
| PointerMove (x y : Q)
| PointerUp.

Definition stroke (coverage : Q * Q → Q * Q → Z → Z → Z) (c : canvas)
    (p q : Q * Q) : canvas :=
  {| width := width c; height := height c;
     pixel := fun i j =>
       let a := coverage p q i j in
       let d := pixel c i j in
       if a =? 0 then d
       else {| red := (red ink_colour * a + red d * (255 - a)) / 255;
               green := (green ink_colour * a + green d * (255 - a)) / 255;
               blue := (blue ink_colour * a + blue d * (255 - a)) / 255;
               alpha := over_alpha a (alpha d) |};
     scale := scale c;
     parent_clientWidth := parent_clientWidth c;
     devicePixelRatio := devicePixelRatio c |}.

Definition handle_pointer (coverage : Q * Q → Q * Q → Z → Z → Z) (s : pad)
    (e : pointer) : pad :=
  match e with
  | PointerDown x y =>
      {| surface := surface s; drawing := true; lastX := x; lastY := y |}
  | PointerMove x y =>
      if negb (drawing s) then s
      else {| surface := stroke coverage (surface s) (lastX s, lastY s) (x, y);
              drawing := true; lastX := x; lastY := y |}
  | PointerUp =>
      {| surface := surface s; drawing := false; lastX := lastX s; lastY := lastY s |}
  end.

(** ** page.tsx: [hasAnyInk] *)

(** [ctx.getImageData(0, 0, width, height).data]: four bytes per pixel, rows
    first. *)
Definition getImageData (c : canvas) (i : Z) : Z :=
  let px := pixel c ((i / 4) mod width c) ((i / 4) / width c) in
  match i mod 4 with
  | 0 => red px
  | 1 => green px
  | 2 => blue px
  | _ => alpha px
  end.

(** The values of [for (let v = 0; v < stop; v += step)] *)
Definition loop_values (stop step : Z) : list Z :=
  map (fun k => Z.of_nat k * step) (seq 0 (Z.to_nat ((stop + step - 1) / step))).

Definition hasAnyInk (c : canvas) : bool :=
  if (width c =? 0) || (height c =? 0) then false
  else
    let step := 4 in
    let data := getImageData c in
    existsb
      (fun y =>
         existsb (fun x => 0 <? data ((y * width c + x) * 4 + 3))
           (loop_values (width c) step))
      (loop_values (height c) step).

(** ** page.tsx: the payload of [handleSubmit] *)

Record medical : Type :=
  { TB : bool; Asthma : bool; EczemaPsoriasis : bool; Gonorrhea : bool;
    HIV : bool; Hepatitis : bool; HeartConditions : bool; Syphilis : bool;
    Herpes : bool; SkinConditions : bool; PregnantNursing : bool;
    MRSAStaph : bool; Diabetes : bool; BloodThinners : bool;
    FaintingDizziness : bool; LatexAllergies : bool; Epilepsy : bool;
    Hemophilia : bool; ScarringKeloiding : bool; AntibioticAllergies : bool }.

Inductive IdType : Type := DriverLicense | Passport | BirthCertificate.

Definition idType_text (t : IdType) : string :=
  match t with
  | DriverLicense => "Driver License"
  | Passport => "Passport"
  | BirthCertificate => "Birth Certificate"
  end.

Inductive ProcedureType : Type := Tattoo | PermanentCosmetics | Branding | Piercing.

Definition procedureType_text (t : ProcedureType) : string :=
  match t with
  | Tattoo => "Tattoo"
  | PermanentCosmetics => "Permanent cosmetics"
  | Branding => "Branding"
  | Piercing => "Piercing"
  end.

Record form : Type :=
  { clientName : string; email : string; phone : string; address : string;
    dob : string; emergencyName : string; emergencyPhone : string;
    idType : IdType; idFile : option file;
    procedureType : ProcedureType; procedureSite : string; procedureDesc : string;
    practitioner : string;
    mh : medical;
    lastAte : string; allergies : string; medications : string;
    herpesHistory : string; otherConditions : string;
    antibioticsHistory : string; cardiacValve : string; extraInfo : string;
    consents : list bool;
    optPhoto : bool; sendAftercare : bool }.

(** [canvas.toDataURL('image/png')], given the PNG encoding of the bitmap *)
Definition toDataURL (png : list byte) : string :=
  "data:image/png;base64," +:+ Base64.toString_base64 png.

(** [text && `label${text}`] as an entry of the notes *)
Definition note (label text : string) : list string :=
  if String.eqb text "" then [] else [label +:+ text].

(** [[...].filter(Boolean).join('\n')] *)
Definition medical_notes (f : form) : string :=
  String.concat (String "010" "")
    (note "Last ate: " (lastAte f) ++ note "Allergies: " (allergies f)
     ++ note "Medications: " (medications f)
     ++ note "Herpes history: " (herpesHistory f)
     ++ note "Other conditions: " (otherConditions f)
     ++ note "Prophylactic antibiotics: " (antibioticsHistory f)
     ++ note "Cardiac valve disease: " (cardiacValve f)
     ++ note "Extra info: " (extraInfo f)).

(** A property whose value may be [undefined] is left out of the JSON text. *)
Definition ack (k : string) (f : form) (i : nat) : list (string * json) :=
  match consents f !! i with
  | Some b => [(k, JBool b)]
  | None => []
  end.

Definition payload (f : form) (random : Z) (png : list byte)
    (userAgent now_iso : string) : gmap string json :=
  list_to_map
    ([ ("waiver_id", JStr ("BAT-LOCAL-" +:+ Js.of_int random));
       ("client_name", JStr (clientName f));
       ("email", JStr (email f));
       ("phone", JStr (phone f));
       ("address", JStr (address f));
       ("dob", JStr (dob f));
       ("emergency_contact", JStr (emergencyName f));
       ("emergency_phone", JStr (emergencyPhone f));
       ("id_type", JStr (idType_text (idType f)));
       ("id_last4", JStr "");
       ("practitioner", JStr (practitioner f));
       ("procedure_type", JStr (procedureType_text (procedureType f)));
       ("procedure_site", JStr (procedureSite f));
       ("procedure_desc", JStr (procedureDesc f));
       ("signature_png", JStr (toDataURL png));
       ("id_photo_front",
         match fileToDataURL (idFile f) with Some u => JStr u | None => JNull end);
       ("mh_diabetes", JBool (Diabetes (mh f)));
       ("mh_hemophilia", JBool (Hemophilia (mh f)));
       ("mh_pregnancy", JBool (PregnantNursing (mh f)));
       ("mh_hepatitis", JBool (Hepatitis (mh f)));
       ("mh_hiv", JBool (HIV (mh f)));
       ("mh_keloids", JBool (ScarringKeloiding (mh f)));
       ("mh_allergies", JBool (LatexAllergies (mh f) || AntibioticAllergies (mh f)));
       ("mh_medication", JBool (negb (String.eqb (Js.trim (medications f)) "")));
       ("medical_notes", JStr (medical_notes f)) ]
     ++ ack "ack_age" f 0 ++ ack "ack_underage_ok" f 1 ++ ack "ack_sober" f 2
     ++ ack "ack_truthful" f 3 ++ ack "ack_permanent" f 4
     ++ ack "ack_placement" f 5 ++ ack "ack_qs_answered" f 6
     ++ ack "ack_restrictions" f 7 ++ ack "ack_hippa" f 8
     ++ ack "ack_fda_notice" f 9 ++ ack "ack_infection_signs" f 10
     ++ ack "ack_infection_risk" f 11 ++ ack "ack_seek_medical" f 12
     ++ ack "ack_aftercare_negligence" f 13 ++ ack "ack_lightheaded" f 14
     ++ ack "ack_notify_artist" f 15 ++ ack "ack_risks_assumed" f 16
     ++ [ ("opt_photo", JBool (optPhoto f));
          ("opt_email", JBool true);
          ("send_aftercare", JBool (sendAftercare f));
          ("user_agent", JStr userAgent);
          ("timestamp_iso", JStr now_iso) ]).

Inductive submit : Type :=
| Alert (text : string)
| Sent (body : json).

(** Lines 362-474: the three local checks, then the one request. *)
Definition handleSubmit (f : form) (c : canvas) (random : Z) (png : list byte)
    (userAgent now_iso : string) : submit :=
  if String.eqb (clientName f) "" || String.eqb (email f) "" then
    Alert "Please fill required fields (Name, Email)."
  else if negb (forallb (fun b => b) (consents f)) then
    Alert "Please check all informed consent items."
  else if negb (hasAnyInk c) then
    Alert "Please sign in the signature box."
  else Sent (JObj (payload f random png userAgent now_iso)).

(** Lines 470-489: what the page shows once the request has settled.  The
    answer is given by its status and its JSON body ([None] when [r.json()]
    fails, which the code replaces by the empty object); an exception on the
    way, the rejected [fetch] included, ends in the [catch] clause. *)
Definition after_fetch (waiver_id : string) (r : promise (Z * option json))
  : string :=
  match r with
  | Rejects _ => "Network error. Please try again."
  | Resolves (status, body) =>
      let json := default (JObj ∅) body in
      let r_ok := (200 <=? status) && (status <=? 299) in
      if negb r_ok || negb (truthy (get json "ok")) then
        "Something went wrong saving your waiver. Please try again."
      else
        match toString (or_else (get json "waiver_id") (JStr waiver_id)) with
        | Some id => "Waiver submitted! Your ID: " +:+ id
        | None => "Network error. Please try again."
        end
  end.

(** ** Vocabulary of the statements *)

(** Octets and six-bit groups as integers. *)
Definition is_octet (z : Z) : Prop := 0 ≤ z < 256.
Definition is_sextet (z : Z) : Prop := 0 ≤ z < 64.

(** What a character of the alphabet is not. *)
Definition plain (c : ascii) : bool :=
  negb (Base64.is_ascii_whitespace c) && negb (Ascii.eqb c "=")
  && negb (Ascii.eqb c ",") && negb (Ascii.eqb c ";").

(** The encoder's output before the padding. *)
Definition core (buf : list byte) : list ascii :=
  map Base64.char_of_sextet (Base64.sextets (map Base64.byte_val buf)).

(** The surface is fully opaque: the state [resize] leaves and strokes keep. *)
Definition opaque (c : canvas) : Prop :=
  ∀ i j, 0 ≤ i < width c → 0 ≤ j < height c → alpha (pixel c i j) = 255.

(** A body that passes the check of line 78. *)
Definition valid (body : json) : Prop :=
  truthy (get body "client_name") = true ∧ truthy (get body "email") = true.

Definition is_upload (ev : event) : bool :=
  match ev with Upload _ _ _ => true | _ => false end.
Definition is_insert (ev : event) : bool :=
  match ev with Insert _ => true | _ => false end.
Definition is_fetch (ev : event) : bool :=
  match ev with Fetch _ => true | _ => false end.

Definition is_console (ev : event) : bool :=
  match ev with ConsoleError _ | ConsoleLog _ => true | _ => false end.

(** The columns of the inserted row. *)
Definition columns : list string :=
  [ "waiver_id"; "client_name"; "email"; "phone"; "dob"; "procedure_type";
    "procedure_site"; "signature_path"; "id_photo_front_path";
    "send_aftercare"; "timestamp_iso" ].

(** A path under the namespace of an identifier. *)
Definition namespaced (id : json) (path : string) : Prop :=
  ∃ s name, toString id = Some s ∧ path = "waivers/" +:+ s +:+ "/" +:+ name.

(** The rows a trace inserts. *)
Definition inserted (trace : list event) : list (gmap string json) :=
  omap (fun ev => match ev with Insert row => Some row | _ => None end) trace.


Definition attachment_names : list string :=
  ["signature_png"; "signature_path"; "id_photo_front"; "id_photo_front_path"].

(** ** Sample worlds, bodies and forms *)

(** A world in which everything succeeds. *)
Definition calm : world :=
  {| Date_now := 1730000000000;
     toISOString := "2024-10-27T03:33:20.000Z";
     upload := fun _ => Resolves None;
     insert := fun _ => Resolves None;
     BREVO_API_KEY := Some "xkeysib-1";
     FROM_EMAIL := None;
     REPLY_TO := None;
     fetch := Resolves {| r_ok := true; r_status := 201; r_text := Resolves "{}" |} |}.

(** The same world, except that the storage service answers every upload
    with an error result. *)
Definition storage_refuses : world :=
  {| Date_now := Date_now calm; toISOString := toISOString calm;
     upload := fun _ => Resolves (Some "Bucket not found");
     insert := insert calm;
     BREVO_API_KEY := BREVO_API_KEY calm; FROM_EMAIL := FROM_EMAIL calm;
     REPLY_TO := REPLY_TO calm; fetch := fetch calm |}.

(** The same world, except that the request to the mail API fails on the
    network. *)
Definition mail_unreachable : world :=
  {| Date_now := Date_now calm; toISOString := toISOString calm;
     upload := upload calm; insert := insert calm;
     BREVO_API_KEY := BREVO_API_KEY calm; FROM_EMAIL := FROM_EMAIL calm;
     REPLY_TO := REPLY_TO calm; fetch := Rejects "fetch failed" |}.

Definition ann : gmap string json :=
  list_to_map
    [ ("waiver_id", JStr "BAT-LOCAL-4711");
      ("client_name", JStr "Ann Lee");
      ("email", JStr "ann@example.com");
      ("send_aftercare", JBool true) ].

(** Ann's body with a two-octet signature image. *)
Definition ann_signed : json :=
  JObj (<["signature_png" := JStr "data:image/png;base64,aGk="]> ann).

Definition ann_row (signature_path : json) : gmap string json :=
  list_to_map
    [ ("waiver_id", JStr "BAT-LOCAL-4711");
      ("client_name", JStr "Ann Lee");
      ("email", JStr "ann@example.com");
      ("phone", JNull); ("dob", JNull);
      ("procedure_type", JNull); ("procedure_site", JNull);
      ("signature_path", signature_path);
      ("id_photo_front_path", JNull);
      ("send_aftercare", JBool true);
      ("timestamp_iso", JStr "2024-10-27T03:33:20.000Z") ].

Definition ann_mail : mail :=
  {| api_key := Some "xkeysib-1";
     sender_email := "no-reply@brokenarttattoo.com";
     to_email := JStr "ann@example.com";
     first := "Ann";
     replyTo := None |}.

Definition phone_canvas : canvas :=
  {| width := 300; height := 150;
     pixel := fun _ _ => transparent;
     scale := 1;
     parent_clientWidth := 343;
     devicePixelRatio := 1 |}.

Definition no_coverage : Q * Q → Q * Q → Z → Z → Z := fun _ _ _ _ => 0.

Definition ann_history : medical :=
  {| TB := false; Asthma := false; EczemaPsoriasis := false; Gonorrhea := false;
     HIV := false; Hepatitis := false; HeartConditions := false; Syphilis := false;
     Herpes := false; SkinConditions := false; PregnantNursing := false;
     MRSAStaph := false; Diabetes := true; BloodThinners := false;
     FaintingDizziness := false; LatexAllergies := false; Epilepsy := false;
     Hemophilia := false; ScarringKeloiding := false; AntibioticAllergies := false |}.

Definition ann_form : form :=
  {| clientName := "Ann Lee"; email := "ann@example.com"; phone := "555-0100";
     address := "12 Elm St"; dob := "1990-04-01";
     emergencyName := "Bo Lee"; emergencyPhone := "555-0101";
     idType := Passport; idFile := None;
     procedureType := Tattoo; procedureSite := "left forearm";
     procedureDesc := "swallow"; practitioner := "Jeremy Swan";
     mh := ann_history;
     lastAte := "noon"; allergies := ""; medications := "insulin";
     herpesHistory := ""; otherConditions := ""; antibioticsHistory := "";
     cardiacValve := ""; extraInfo := "";
     consents := repeat true 17;
     optPhoto := false; sendAftercare := false |}.

Definition ann_payload : gmap string json :=
  payload ann_form 4711 ["h"; "i"]%byte "Mozilla/5.0" "2024-10-27T03:33:19.000Z".

Definition ann_full_row : gmap string json :=
  list_to_map
    [ ("waiver_id", JStr "BAT-LOCAL-4711");
      ("client_name", JStr "Ann Lee");
      ("email", JStr "ann@example.com");
      ("phone", JStr "555-0100");
      ("dob", JStr "1990-04-01");
      ("procedure_type", JStr "Tattoo");
      ("procedure_site", JStr "left forearm");
      ("signature_path", JStr "waivers/BAT-LOCAL-4711/signature.png");
      ("id_photo_front_path", JNull);
      ("send_aftercare", JBool false);
      ("timestamp_iso", JStr "2024-10-27T03:33:20.000Z") ].


(** A body whose signature has the tag but not the Base64 part. *)
Definition garbled : json :=
  JObj (<["signature_png" := JStr "data:image/png;base64,%%%"]> ann).

(** Worlds in which one service fails, and one with a sender configured. *)
Definition storage_down : world :=
  {| Date_now := Date_now calm; toISOString := toISOString calm;
     upload := fun _ => Rejects "ECONNREFUSED";
     insert := insert calm;
     BREVO_API_KEY := BREVO_API_KEY calm; FROM_EMAIL := FROM_EMAIL calm;
     REPLY_TO := REPLY_TO calm; fetch := fetch calm |}.

Definition duplicate_key : pg_error :=
  {| message := JStr "duplicate key value violates unique constraint";
     details := JStr "Key (waiver_id) already exists.";
     hint := JNull |}.

Definition db_refuses : world :=
  {| Date_now := Date_now calm; toISOString := toISOString calm;
     upload := upload calm;
     insert := fun _ => Resolves (Some duplicate_key);
     BREVO_API_KEY := BREVO_API_KEY calm; FROM_EMAIL := FROM_EMAIL calm;
     REPLY_TO := REPLY_TO calm; fetch := fetch calm |}.

Definition unauthorized : fetch_response :=
  {| r_ok := false; r_status := 401; r_text := Resolves "Key not found" |}.

Definition mail_refuses : world :=
  {| Date_now := Date_now calm; toISOString := toISOString calm;
     upload := upload calm; insert := insert calm;
     BREVO_API_KEY := BREVO_API_KEY calm; FROM_EMAIL := FROM_EMAIL calm;
     REPLY_TO := REPLY_TO calm; fetch := Resolves unauthorized |}.

Definition studio : world :=
  {| Date_now := Date_now calm; toISOString := toISOString calm;
     upload := upload calm; insert := insert calm;
     BREVO_API_KEY := BREVO_API_KEY calm;
     FROM_EMAIL := Some "Studio <hello@studio.test>";
     REPLY_TO := Some "desk@studio.test"; fetch := fetch calm |}.

Definition studio_mail : mail :=
  {| api_key := Some "xkeysib-1";
     sender_email := "hello@studio.test";
     to_email := JStr "ann@example.com";
     first := "Ann";
     replyTo := Some "desk@studio.test" |}.

(** Ann's signed body with an ID photo whose payload is not Base64, and with
    one that is. *)
Definition ann_bad_photo : json :=
  set_field ann_signed "id_photo_front" (JStr "data:image/jpeg;base64,%%%").

Definition ann_photo : json :=
  set_field ann_signed "id_photo_front" (JStr "data:image/jpeg;base64,aGk=").

Definition passport_scan : file :=
  {| file_bytes := ["h"; "i"]%byte; file_type := "image/jpeg" |}.

Definition ann_form_with_photo : form :=
  {| clientName := clientName ann_form; email := email ann_form;
     phone := phone ann_form; address := address ann_form; dob := dob ann_form;
     emergencyName := emergencyName ann_form;
     emergencyPhone := emergencyPhone ann_form;
     idType := idType ann_form; idFile := Some passport_scan;
     procedureType := procedureType ann_form;
     procedureSite := procedureSite ann_form;
     procedureDesc := procedureDesc ann_form;
     practitioner := practitioner ann_form;
     mh := mh ann_form;
     lastAte := lastAte ann_form; allergies := allergies ann_form;
     medications := medications ann_form;
     herpesHistory := herpesHistory ann_form;
     otherConditions := otherConditions ann_form;
     antibioticsHistory := antibioticsHistory ann_form;
     cardiacValve := cardiacValve ann_form; extraInfo := extraInfo ann_form;
     consents := consents ann_form;
     optPhoto := optPhoto ann_form; sendAftercare := sendAftercare ann_form |}.

Definition full_coverage : Q * Q → Q * Q → Z → Z → Z := fun _ _ _ _ => 255.

Definition idle_pad : pad :=
  {| surface := clearRect_all phone_canvas; drawing := false;
     lastX := 0; lastY := 0 |}.

(** * Properties *)

(** ** Sanity checks of the primitives *)

Example atob_padded : Base64.atob "aGVsbG8=" = Some "hello".
Proof. reflexivity. Qed.
Example atob_skips_spaces : Base64.atob "aGV sbG8" = Some "hello".
Proof. reflexivity. Qed.
Example atob_of_undefined : Base64.atob "undefined" = None.
Proof. reflexivity. Qed.
Example base64_two_pads :
  Base64.toString_base64 (list_byte_of_string "hello!!") = "aGVsbG8hIQ==".
Proof. reflexivity. Qed.
Example split_keeps_empty_pieces : Js.split "," "a,b,,c" = ["a"; "b"; ""; "c"].
Proof. reflexivity. Qed.
Example slice_negative_end : Js.slice "data:image/png" 5 (-1) = "image/pn".
Proof. reflexivity. Qed.
Example of_int_timestamp : Js.of_int 1730000000000 = "1730000000000".
Proof. reflexivity. Qed.
Example first_name_of_padded : Js.first_token (Js.trim "  Ann  Lee ") = "Ann".
Proof. reflexivity. Qed.
Example toString_nested_array :
  toString (JArr [JNum 1; JNull; JStr "a"; JArr [JBool true; JNum (-2)]])
  = Some "1,,a,true,-2".
Proof. reflexivity. Qed.
Example decode_png_tag :
  dataUrlToBytes
    (JStr <$> fileToDataURL
       (Some {| file_bytes := list_byte_of_string "hello"; file_type := "image/png" |}))
  = Returns (Some {| bytes := list_byte_of_string "hello"; mime := "image/png" |}).
Proof. reflexivity. Qed.
Example decode_without_comma :
  dataUrlToBytes (Some (JStr "data:image/png;base64")) = Throws InvalidCharacterError.
Proof. reflexivity. Qed.

(** ** Facts about the string primitives *)

Section StringFacts.

Lemma split_no_sep sep s :
  Js.includes sep s = false → Js.split sep s = [s].
Proof.
  induction s as [|c s IH]; simpl; [done|].
  destruct (Ascii.eqb c sep); simpl; [done|].
  intros H. by rewrite (IH H).
Qed.

Lemma split_app_sep sep a b :
  Js.includes sep a = false →
  Js.split sep (a +:+ String sep b) = a :: Js.split sep b.
Proof.
  induction a as [|c a IH]; simpl.
  - intros _. by rewrite Ascii.eqb_refl.
  - destruct (Ascii.eqb c sep); simpl; [done|].
    intros H. by rewrite (IH H).
Qed.

Lemma indexOf_app_sep c a b :
  Js.includes c a = false →
  Js.indexOf c (a +:+ String c b) = Z.of_nat (String.length a).
Proof.
  induction a as [|d a IH]; simpl.
  - intros _. by rewrite Ascii.eqb_refl.
  - destruct (Ascii.eqb d c); simpl; [done|].
    intros H. rewrite (IH H).
    destruct (Z.of_nat (String.length a) <? 0) eqn:E; lia.
Qed.

Lemma substring_prefix a b :
  String.substring 0 (String.length a) (a +:+ b) = a.
Proof.
  induction a as [|c a IH]; simpl.
  - by destruct b.
  - by rewrite IH.
Qed.

Lemma length_append a b :
  String.length (a +:+ b) = (String.length a + String.length b)%nat.
Proof. induction a as [|c a IH]; simpl; [done|]. by rewrite IH. Qed.

Lemma includes_of_list c l :
  Js.includes c (string_of_list_ascii l) = existsb (fun d => Ascii.eqb d c) l.
Proof. induction l as [|d l IH]; simpl; [done|]. by rewrite IH. Qed.

End StringFacts.

(** ** Facts about Base64 *)

Section Base64Facts.

Import Base64.

Lemma list_ind3 {A} (P : list A → Prop) :
  P [] → (∀ a, P [a]) → (∀ a b, P [a; b]) →
  (∀ a b c rest, P rest → P (a :: b :: c :: rest)) →
  ∀ l, P l.
Proof.
  intros H0 H1 H2 H3.
  assert (H : ∀ l, P l ∧ (∀ a, P (a :: l)) ∧ (∀ a b, P (a :: b :: l))).
  { induction l as [|x l (IHa & IHb & IHc)]; [by auto|].
    split; [apply IHb|]. split; [intros; apply IHc|]. intros a b. by apply H3. }
  intros l. apply H.
Qed.

Lemma byte_val_octet b : is_octet (byte_val b).
Proof.
  unfold is_octet, byte_val. pose proof (Byte.to_N_bounded b). lia.
Qed.

Lemma byte_of_val_byte_val b : byte_of_val (byte_val b) = b.
Proof.
  unfold byte_of_val, byte_val. by rewrite N2Z.id, Byte.of_to_N.
Qed.

Lemma sextets_in_range bs :
  Forall is_octet bs → Forall is_sextet (sextets bs).
Proof.
  induction bs as [|a|a b|a b c rest IH] using list_ind3; simpl; intros H.
  - constructor.
  - inversion_clear H as [|? ? Ha _]. unfold is_octet, is_sextet in *.
    repeat constructor; Z.to_euclidean_division_equations; lia.
  - inversion_clear H as [|? ? Ha H']. inversion_clear H' as [|? ? Hb _].
    unfold is_octet, is_sextet in *.
    repeat constructor; Z.to_euclidean_division_equations; lia.
  - inversion_clear H as [|? ? Ha H']. inversion_clear H' as [|? ? Hb H''].
    inversion_clear H'' as [|? ? Hc Hr].
    repeat (constructor; [unfold is_octet, is_sextet in *;
                          Z.to_euclidean_division_equations; lia|]).
    by apply IH.
Qed.

Lemma octets_sextets bs :
  Forall is_octet bs → octets (sextets bs) = bs.
Proof.
  induction bs as [|a|a b|a b c rest IH] using list_ind3; simpl; intros H.
  - done.
  - inversion_clear H as [|? ? Ha _]. unfold is_octet in *.
    f_equal. Z.to_euclidean_division_equations; lia.
  - inversion_clear H as [|? ? Ha H']. inversion_clear H' as [|? ? Hb _].
    unfold is_octet in *.
    repeat f_equal; Z.to_euclidean_division_equations; lia.
  - inversion_clear H as [|? ? Ha H']. inversion_clear H' as [|? ? Hb H''].
    inversion_clear H'' as [|? ? Hc Hr]. unfold is_octet in *.
    rewrite (IH Hr).
    repeat f_equal; Z.to_euclidean_division_equations; lia.
Qed.

Lemma sextet_of_char_of_sextet n :
  is_sextet n → sextet_of_char (char_of_sextet n) = Some n.
Proof.
  intros [Hlo Hhi]. rewrite <- (Z2Nat.id n) by lia.
  assert (Hk : (Z.to_nat n < 64)%nat) by lia.
  generalize dependent (Z.to_nat n). clear. intros k Hk.
  do 64 (destruct k as [|k]; [reflexivity|]). lia.
Qed.

Lemma all_sextets_chars ss :
  Forall is_sextet ss → all_sextets (map char_of_sextet ss) = Some ss.
Proof.
  induction 1 as [|n ss Hn _ IH]; simpl; [done|].
  by rewrite (sextet_of_char_of_sextet n Hn), IH.
Qed.

Lemma char_of_sextet_plain n : plain (char_of_sextet n) = true.
Proof.
  unfold char_of_sextet.
  assert (H : Forall (fun c => plain c = true) alphabet).
  { unfold alphabet. simpl. repeat constructor. }
  destruct (Z.to_nat n) as [|k] eqn:E; [reflexivity|].
  destruct (nth_in_or_default (S k) alphabet "A"%char) as [Hin | ->];
    [|reflexivity].
  rewrite Forall_forall in H. by apply H, list_elem_of_In.
Qed.

Lemma plain_parts c :
  plain c = true →
  is_ascii_whitespace c = false ∧ Ascii.eqb c "=" = false
  ∧ Ascii.eqb c "," = false ∧ Ascii.eqb c ";" = false.
Proof.
  unfold plain. rewrite !andb_true_iff, !negb_true_iff. tauto.
Qed.

Lemma core_plain buf : Forall (fun c => plain c = true) (core buf).
Proof.
  unfold core. apply Forall_forall. intros c Hc.
  apply list_elem_of_In, in_map_iff in Hc as (n & <- & _).
  apply char_of_sextet_plain.
Qed.

Lemma padding_cases n :
  padding n = [] ∨ padding n = ["="%char] ∨ padding n = ["="%char; "="%char].
Proof.
  unfold padding. destruct (n mod 3)%nat as [|[|[|k]]]; auto.
Qed.

Lemma filter_plain l :
  Forall (fun c => plain c = true) l →
  List.filter (fun c => negb (is_ascii_whitespace c)) l = l.
Proof.
  induction 1 as [|c l Hc _ IH]; simpl; [done|].
  apply plain_parts in Hc as (-> & _). simpl. by rewrite IH.
Qed.

Lemma filter_padding n :
  List.filter (fun c => negb (is_ascii_whitespace c)) (padding n) = padding n.
Proof. by destruct (padding_cases n) as [-> | [-> | ->]]. Qed.

Lemma strip_padding_core l n :
  Forall (fun c => plain c = true) l →
  strip_padding (l ++ padding n) = l.
Proof.
  intros Hl. unfold strip_padding.
  assert (Hlast : ∀ c r, rev l = c :: r → Ascii.eqb c "=" = false).
  { intros c r Hr. apply (f_equal (@rev _)) in Hr. rewrite rev_involutive in Hr.
    subst l. simpl in Hl. apply Forall_app in Hl as [_ Hc].
    inversion_clear Hc as [|? ? Hc' _]. by apply plain_parts in Hc' as (_ & -> & _). }
  destruct (padding_cases n) as [-> | [-> | ->]]; rewrite rev_app_distr; simpl.
  - rewrite app_nil_r. destruct (rev l) as [|c r] eqn:E; [done|].
    by rewrite (Hlast c r eq_refl).
  - destruct (rev l) as [|c r] eqn:E.
    + apply (f_equal (@rev _)) in E. rewrite rev_involutive in E. by subst.
    + rewrite (Hlast c r eq_refl). rewrite <- E. apply rev_involutive.
  - apply rev_involutive.
Qed.

Lemma length_sextets bs :
  ∃ k, (length (sextets bs) + length (padding (length bs)) = 4 * k)%nat
       ∧ ((length (sextets bs)) mod 4 ≠ 1)%nat.
Proof.
  induction bs as [|a|a b|a b c rest (k & IH1 & IH2)] using list_ind3.
  - by exists 0%nat.
  - by exists 1%nat.
  - by exists 1%nat.
  - exists (S k). cbn [sextets length]. split.
    + replace (padding (S (S (S (length rest))))) with (padding (length rest)).
      * lia.
      * unfold padding. f_equal.
        replace (S (S (S (length rest)))) with (length rest + 1 * 3)%nat by lia.
        by rewrite Nat.Div0.mod_add.
    + replace (S (S (S (S (length (sextets rest)))))) with
        (length (sextets rest) + 1 * 4)%nat by lia.
      by rewrite Nat.Div0.mod_add.
Qed.

(** Decoding what the encoder wrote gives the octets back. *)
Lemma decode_encode_chars buf : decode_chars (encode_chars buf) = Some buf.
Proof.
  unfold decode_chars, encode_chars. fold (core buf).
  rewrite List.filter_app, (filter_plain _ (core_plain buf)), filter_padding.
  destruct (length_sextets (map byte_val buf)) as (k & Hlen & Hcore).
  assert (Hl : (length (core buf ++ padding (length buf)) mod 4 = 0)%nat).
  { rewrite length_app. unfold core. rewrite length_map.
    rewrite length_map in Hlen. rewrite Hlen.
    rewrite Nat.mul_comm. apply Nat.Div0.mod_mul. }
  rewrite Hl. change (0 =? 0)%nat with true. cbv iota.
  rewrite (strip_padding_core _ _ (core_plain buf)).
  assert (Hc : (length (core buf) mod 4 =? 1)%nat = false).
  { apply Nat.eqb_neq. unfold core. by rewrite length_map. }
  rewrite Hc. unfold core.
  assert (Hoct : Forall is_octet (map byte_val buf)).
  { apply Forall_forall. intros z Hz.
    apply list_elem_of_In, in_map_iff in Hz as (b & <- & _). apply byte_val_octet. }
  rewrite (all_sextets_chars _ (sextets_in_range _ Hoct)). simpl.
  rewrite (octets_sextets _ Hoct), map_map. f_equal.
  rewrite <- (map_id buf) at 2. apply map_ext, byte_of_val_byte_val.
Qed.

Lemma atob_toString_base64 buf :
  atob (toString_base64 buf) = Some (string_of_list_byte buf).
Proof.
  unfold atob, toString_base64.
  by rewrite list_ascii_of_string_of_list_ascii, decode_encode_chars.
Qed.

Lemma toString_base64_no_comma buf :
  Js.includes "," (toString_base64 buf) = false.
Proof.
  unfold toString_base64, encode_chars. fold (core buf).
  rewrite includes_of_list, existsb_app. apply orb_false_iff. split.
  - pose proof (core_plain buf) as Hp.
    induction Hp as [|d l Hd _ IH]; simpl; [done|].
    apply plain_parts in Hd as (_ & _ & -> & _). by rewrite IH.
  - by destruct (padding_cases (length buf)) as [-> | [-> | ->]].
Qed.

End Base64Facts.

(** ** The tagged format survives the trip from the form to the handler *)

Lemma append_cons x a b : String x a +:+ b = String x (a +:+ b).
Proof. reflexivity. Qed.

Lemma append_assoc a b c : (a +:+ b) +:+ c = a +:+ (b +:+ c).
Proof. induction a as [|x a IH]; [done|]. by rewrite !append_cons, IH. Qed.

Lemma includes_append c a b :
  Js.includes c (a +:+ b) = Js.includes c a || Js.includes c b.
Proof.
  induction a as [|x a IH]; simpl; [done|]. by rewrite IH, orb_assoc.
Qed.

Lemma startsWith_append p s : Js.startsWith (p +:+ s) p = true.
Proof.
  unfold Js.startsWith. induction p as [|x p IH].
  - by destruct s.
  - rewrite append_cons. simpl. by destruct (ascii_dec x x).
Qed.

Lemma slice_middle (p a q : string) :
  Js.slice (p +:+ a +:+ q) (Z.of_nat (String.length p))
    (Z.of_nat (String.length p + String.length a)) = a.
Proof.
  unfold Js.slice. rewrite !length_append.
  set (lp := String.length p). set (la := String.length a).
  set (lq := String.length q).
  replace (Z.of_nat lp <? 0) with false by (symmetry; apply Z.ltb_ge; lia).
  replace (Z.of_nat (lp + la) <? 0) with false by (symmetry; apply Z.ltb_ge; lia).
  replace (Z.to_nat (Z.of_nat lp `min` Z.of_nat (lp + (la + lq)))) with lp by lia.
  replace (Z.to_nat _) with la by lia.
  subst lp la. clear lq. induction p as [|x p IH].
  - apply (substring_prefix a q).
  - rewrite append_cons. apply IH.
Qed.

(** C8, as the code has it: for every octet sequence and every MIME type
    that contains neither a comma nor a semicolon, [dataUrlToBytes] applied
    to the string [fileToDataURL] builds, [data:<mime>;base64,<b64>], gives
    back exactly the octets and the MIME type. *)
Theorem C8_data_url_round_trip (buf : list byte) (type : string) :
  Js.includes "," type = false →
  Js.includes ";" type = false →
  dataUrlToBytes
    (JStr <$> fileToDataURL (Some {| file_bytes := buf; file_type := type |}))
  = Returns (Some {| bytes := buf; mime := type |}).
Proof.
  intros Hcomma Hsemi.
  cbn [fileToDataURL file_bytes file_type fmap option_map option_fmap].
  set (b64 := Base64.toString_base64 buf).
  set (meta := "data:" +:+ type +:+ ";base64").
  assert (Hurl : "data:" +:+ type +:+ ";base64," +:+ b64 = meta +:+ String "," b64).
  { unfold meta. by rewrite !append_assoc. }
  assert (Hsplit : Js.split "," (meta +:+ String "," b64) = [meta; b64]).
  { rewrite split_app_sep.
    - by rewrite (split_no_sep "," b64 (toString_base64_no_comma buf)).
    - unfold meta. rewrite !includes_append, Hcomma. reflexivity. }
  assert (Hidx : Js.indexOf ";" meta
                 = Z.of_nat (String.length "data:" + String.length type)).
  { unfold meta.
    change (";base64") with (String ";" "base64").
    rewrite <- append_assoc, indexOf_app_sep, length_append; [done|].
    rewrite includes_append, Hsemi. reflexivity. }
  assert (Ht : truthy (Some (JStr ("data:" +:+ type +:+ ";base64," +:+ b64))) = true)
    by reflexivity.
  assert (Hp : Js.startsWith ("data:" +:+ type +:+ ";base64," +:+ b64) "data:" = true)
    by apply startsWith_append.
  unfold dataUrlToBytes. rewrite Ht, Hp, Hurl, Hsplit.
  cbn [negb nth lookup list_lookup default from_option id].
  rewrite Hidx.
  change 5 with (Z.of_nat (String.length "data:")).
  unfold meta. rewrite slice_middle.
  subst b64. rewrite atob_toString_base64, list_byte_of_string_of_list_byte.
  reflexivity.
Qed.

(** ** Facts about the signature pad *)

Section PadFacts.

Lemma dpr_ge_1 c : (1 <= dpr_of c)%Q.
Proof. unfold dpr_of. apply Q.le_max_l. Qed.

Lemma scaled_ge (n : Z) (r : Q) : 0 ≤ n → (1 <= r)%Q → n ≤ Qfloor (inject_Z n * r).
Proof.
  intros Hn Hr. rewrite <- (Qfloor_Z n) at 1. apply Qfloor_resp_le.
  rewrite <- (Qmult_1_r (inject_Z n)) at 1.
  destruct (Z.eq_dec n 0) as [-> | Hne].
  - rewrite !Qmult_0_l. apply Qle_refl.
  - apply Qmult_le_l; [|done]. change (inject_Z 0 < inject_Z n)%Q.
    rewrite <- Zlt_Qlt. lia.
Qed.

Lemma width_resize c : width (resize c) = Qfloor (inject_Z (parent_clientWidth c) * dpr_of c).
Proof. reflexivity. Qed.

Lemma height_resize c : height (resize c) = Qfloor (inject_Z 160 * dpr_of c).
Proof. reflexivity. Qed.

(** [resize] leaves every pixel of the bitmap opaque white. *)
Lemma pixel_resize c i j :
  0 ≤ i < width (resize c) → 0 ≤ j < height (resize c) →
  pixel (resize c) i j = white.
Proof.
  rewrite width_resize, height_resize. intros [Hi0 Hi] [Hj0 Hj].
  unfold resize, fillRect. cbn [pixel scale width height].
  assert (Hin : ∀ (k n : Z) (r : Q), 0 ≤ k < Qfloor (inject_Z n * r) →
            Qle_bool (0 * r) (inject_Z k) = true
            ∧ Qle_bool (inject_Z (k + 1)) ((0 + inject_Z n) * r) = true).
  { intros k n r [Hk0 Hk]. split; apply Qle_bool_iff.
    - rewrite Qmult_0_l. change (inject_Z 0 <= inject_Z k)%Q. by rewrite <- Zle_Qle.
    - rewrite Qplus_0_l. eapply Qle_trans; [|apply Qfloor_le].
      rewrite <- Zle_Qle. lia. }
  destruct (Hin i _ _ (conj Hi0 Hi)) as [-> ->].
  destruct (Hin j _ _ (conj Hj0 Hj)) as [-> ->].
  reflexivity.
Qed.

Lemma getImageData_alpha c x y :
  0 ≤ x < width c → 0 ≤ y →
  getImageData c ((y * width c + x) * 4 + 3) = alpha (pixel c x y).
Proof.
  intros Hx Hy. unfold getImageData.
  assert (H4 : ((y * width c + x) * 4 + 3) / 4 = y * width c + x).
  { Z.to_euclidean_division_equations; lia. }
  assert (Hm : ((y * width c + x) * 4 + 3) mod 4 = 3).
  { Z.to_euclidean_division_equations; lia. }
  rewrite H4, Hm.
  rewrite (Z.add_comm (y * width c) x), Z.mod_add, Z.div_add by lia.
  rewrite Z.mod_small, Z.div_small by lia. by rewrite Z.add_0_l.
Qed.

Lemma loop_values_first stop : 0 < stop → ∃ rest, loop_values stop 4 = 0 :: rest.
Proof.
  intros H. unfold loop_values.
  destruct (Z.to_nat ((stop + 4 - 1) / 4)) as [|n] eqn:E.
  - exfalso. assert (1 ≤ (stop + 4 - 1) / 4) by (Z.to_euclidean_division_equations; lia).
    lia.
  - simpl. eauto.
Qed.

(** An opaque pixel at the origin is enough for the detector. *)
Lemma hasAnyInk_origin c :
  0 < width c → 0 < height c → 0 < alpha (pixel c 0 0) → hasAnyInk c = true.
Proof.
  intros Hw Hh Ha. unfold hasAnyInk.
  replace (width c =? 0) with false by (symmetry; apply Z.eqb_neq; lia).
  replace (height c =? 0) with false by (symmetry; apply Z.eqb_neq; lia).
  destruct (loop_values_first _ Hw) as [xs ->].
  destruct (loop_values_first _ Hh) as [ys ->].
  cbn [orb existsb]. rewrite (getImageData_alpha c 0 0) by lia.
  apply Z.ltb_lt in Ha. rewrite Ha. reflexivity.
Qed.

Lemma over_alpha_opaque a : over_alpha a 255 = 255.
Proof. unfold over_alpha. Z.to_euclidean_division_equations; lia. Qed.

Lemma opaque_resize c : opaque (resize c).
Proof. intros i j Hi Hj. by rewrite pixel_resize. Qed.

Lemma opaque_stroke coverage c p q : opaque c → opaque (stroke coverage c p q).
Proof.
  intros H i j Hi Hj. unfold stroke in *. cbn [pixel width height] in *.
  destruct (coverage p q i j =? 0); [by apply H|].
  cbn [alpha]. rewrite (H i j Hi Hj). apply over_alpha_opaque.
Qed.

Lemma handle_pointer_keeps coverage s e :
  opaque (surface s) →
  opaque (surface (handle_pointer coverage s e))
  ∧ width (surface (handle_pointer coverage s e)) = width (surface s)
  ∧ height (surface (handle_pointer coverage s e)) = height (surface s).
Proof.
  intros H. destruct e as [x y|x y|]; cbn [handle_pointer]; [done| |done].
  destruct (drawing s); cbn [negb surface]; [|done].
  split; [by apply opaque_stroke|done].
Qed.

Lemma pointer_events_keep coverage es s :
  opaque (surface s) →
  opaque (surface (fold_left (handle_pointer coverage) es s))
  ∧ width (surface (fold_left (handle_pointer coverage) es s)) = width (surface s)
  ∧ height (surface (fold_left (handle_pointer coverage) es s)) = height (surface s).
Proof.
  revert s. induction es as [|e es IH]; intros s H; [done|].
  cbn [fold_left].
  destruct (handle_pointer_keeps coverage s e H) as (H1 & <- & <-).
  by apply IH.
Qed.

Lemma hasAnyInk_opaque c :
  0 < width c → 0 < height c → opaque c → hasAnyInk c = true.
Proof.
  intros Hw Hh H. apply hasAnyInk_origin; [done..|].
  rewrite (H 0 0) by lia. lia.
Qed.

Lemma clear_sized c :
  0 < parent_clientWidth c → 0 < width (clear c) ∧ 0 < height (clear c).
Proof.
  intros Hw. unfold clear. rewrite width_resize, height_resize.
  cbn [parent_clientWidth clearRect_all].
  pose proof (dpr_ge_1 (clearRect_all c)) as Hd.
  pose proof (scaled_ge (parent_clientWidth c) _ ltac:(lia) Hd).
  pose proof (scaled_ge 160 _ ltac:(lia) Hd). lia.
Qed.

End PadFacts.

(** C4 (the code departs from it): a surface that [clear] has just wiped
    is painted opaque white by [resize], so [hasAnyInk], which looks for a
    pixel whose alpha is not zero, answers [true] on it although nothing
    has been drawn; pointer strokes drawn afterwards leave the answer
    [true]. *)
Theorem C4_cleared_surface_has_ink (c : canvas)
    (coverage : Q * Q → Q * Q → Z → Z → Z) (events : list pointer) :
  0 < parent_clientWidth c →
  hasAnyInk (clear c) = true
  ∧ hasAnyInk
      (surface
         (fold_left (handle_pointer coverage) events
            {| surface := clear c; drawing := false; lastX := 0; lastY := 0 |}))
    = true.
Proof.
  intros Hw. destruct (clear_sized c Hw) as [Hcw Hch].
  pose proof (opaque_resize (clearRect_all c)) as Hop. fold (clear c) in Hop.
  split; [by apply hasAnyInk_opaque|].
  set (s0 := {| surface := clear c; drawing := false; lastX := 0; lastY := 0 |}).
  destruct (pointer_events_keep coverage events s0 Hop) as (H1 & H2 & H3).
  apply hasAnyInk_opaque; [by rewrite H2 | by rewrite H3 | done].
Qed.

(** ** Facts about the handler *)

Ltac run :=
  unfold mbind, comp_bind, mret, comp_ret, bind, await, emit, lift, throw, ret in *;
  cbn [fst snd app] in *.

(** C1: a body without a truthy [client_name] or without a truthy [email]
    is answered with status 400 and [ok: false], and the handler has done
    nothing by then: its trace is empty, so there was no storage upload and
    no database insert. *)
Theorem C1_missing_field_rejected (w : world) (body : json) :
  truthy (get body "client_name") = false ∨ truthy (get body "email") = false →
  let '(trace, r) := POST w (Resolves body) in
  status r = 400
  ∧ body_json r !! "ok" = Some (JBool false)
  ∧ trace = []
  ∧ Forall (fun ev => is_upload ev = false ∧ is_insert ev = false) trace.
Proof.
  intros H. unfold POST, POST_body. run.
  assert (Hc : negb (truthy (get body "client_name")) || negb (truthy (get body "email")) = true).
  { destruct H as [-> | ->]; [done|]. by rewrite orb_true_r. }
  rewrite Hc. cbn. repeat split; constructor.
Qed.

Lemma signature_step_cases w id body :
  signature_step w id body =
  match dataUrlToBytes (get body "signature_png") with
  | Throws e => ([], Throws e)
  | Returns None => ([], Returns (body, []))
  | Returns (Some d) =>
      match toString id with
      | None => ([], Throws type_error)
      | Some s =>
          let path := "waivers/" +:+ s +:+ "/" +:+ "signature.png" in
          ([Upload path (bytes d) "image/png"],
           Returns (delete_field (set_field body "signature_path" (JStr path))
                      "signature_png",
                    [upload w path]))
      end
  end.
Proof.
  unfold signature_step, storage_path, storage_upload. run.
  destruct (dataUrlToBytes _) as [[d|]|e]; [|done..].
  by destruct (toString id).
Qed.

Lemma id_front_step_cases w id body uploads :
  id_front_step w id body uploads =
  match dataUrlToBytes (get body "id_photo_front") with
  | Throws e => ([], Throws e)
  | Returns None => ([], Returns (body, uploads))
  | Returns (Some d) =>
      match toString id with
      | None => ([], Throws type_error)
      | Some s =>
          let path := "waivers/" +:+ s +:+ "/" +:+ ("id_front." +:+ ext_of (mime d)) in
          ([Upload path (bytes d) (mime d)],
           Returns (delete_field (set_field body "id_photo_front_path" (JStr path))
                      "id_photo_front",
                    uploads ++ [upload w path]))
      end
  end.
Proof.
  unfold id_front_step, storage_path, storage_upload. run.
  destruct (dataUrlToBytes _) as [[d|]|e]; [|done..].
  by destruct (toString id).
Qed.

Lemma Promise_all_trace {A} (ps : list (promise A)) : (Promise_all ps).1 = [].
Proof.
  induction ps as [|[a|r] ps IH]; [done| |done].
  cbn [Promise_all]. run. destruct (Promise_all ps) as [t [l|e]]; simpl in *; by subst.
Qed.

Lemma Promise_all_rejects {A} (ps : list (promise A)) reason :
  In (Rejects reason) ps → ∃ e, (Promise_all ps).2 = Throws e.
Proof.
  induction ps as [|[a|r] ps IH]; intros Hin; [done| |by eexists].
  destruct Hin as [Heq | Hin]; [done|]. destruct (IH Hin) as [e He].
  exists e. cbn [Promise_all]. run.
  destruct (Promise_all ps) as [t [l|e']]; simpl in *; congruence.
Qed.

(** Every run of the handler on a body that passes the check, read off its
    stages. *)
Lemma POST_valid_run w body :
  valid body →
  let id := resolve_waiver_id w body in
  let oops := [ConsoleError "Handler exception"] in
  POST w (Resolves body) =
  match signature_step w id body with
  | (t1, Throws _) => (t1 ++ oops, server_error)
  | (t1, Returns (b1, u1)) =>
      match id_front_step w id b1 u1 with
      | (t2, Throws _) => (t1 ++ t2 ++ oops, server_error)
      | (t2, Returns (b2, u2)) =>
          match Promise_all u2 with
          | (t3, Throws _) => (t1 ++ t2 ++ t3 ++ oops, server_error)
          | (t3, Returns _) =>
              let row := insertPayload w id b2 in
              match insert w row with
              | Rejects _ => (t1 ++ t2 ++ t3 ++ Insert row :: oops, server_error)
              | Resolves (Some error) =>
                  (t1 ++ t2 ++ t3 ++ [Insert row; ConsoleError "DB insert error"],
                   db_error_response error)
              | Resolves None =>
                  match mail_step w b2 with
                  | (t4, Throws _) =>
                      (t1 ++ t2 ++ t3 ++ Insert row :: t4 ++ oops, server_error)
                  | (t4, Returns _) =>
                      (t1 ++ t2 ++ t3 ++ Insert row :: t4, ok_response id)
                  end
              end
          end
      end
  end.
Proof.
  intros [Hn He]. unfold POST, POST_body, mail_step. run.
  rewrite Hn, He. cbn [negb orb].
  destruct (signature_step _ _ _) as [t1 [[b1 u1]|e1]]; [|done].
  destruct (id_front_step _ _ _ _) as [t2 [[b2 u2]|e2]];
    [|unfold try_catch; by rewrite <- ?app_assoc].
  destruct (Promise_all u2) as [t3 [l|e3]];
    [|unfold try_catch; by rewrite <- ?app_assoc].
  destruct (insert w _) as [[error|]|reason]; cbn [app];
    [done| |unfold try_catch; cbn [app]; by rewrite <- ?app_assoc].
  match goal with
  | |- context [if ?c then ?a else ?b] =>
      destruct (if c then a else b) as [t4 [[]|e4]]
  end; unfold try_catch; cbn [app]; rewrite ?app_nil_r; [done|].
  by rewrite <- ?app_assoc.
Qed.

(** *** The working record *)

Lemma get_set_field_ne b k v k' : k ≠ k' → get (set_field b k v) k' = get b k'.
Proof. intros H. destruct b; try done. simpl. by rewrite lookup_insert_ne. Qed.

Lemma get_delete_field_ne b k k' : k ≠ k' → get (delete_field b k) k' = get b k'.
Proof. intros H. destruct b; try done. simpl. by rewrite lookup_delete_ne. Qed.

Lemma get_delete_field b k : get (delete_field b k) k = None.
Proof. destruct b; try done. simpl. by rewrite lookup_delete_eq. Qed.

Lemma get_set_field b k v :
  (∃ fields, b = JObj fields) → get (set_field b k v) k = Some v.
Proof. intros [fields ->]. simpl. by rewrite lookup_insert_eq. Qed.

Lemma valid_is_object body : valid body → ∃ fields, body = JObj fields.
Proof. intros [H _]. destruct body; try done. by eexists. Qed.

Lemma insertPayload_dom w id b : dom (insertPayload w id b) = list_to_set columns.
Proof. unfold insertPayload. rewrite dom_list_to_map_L. reflexivity. Qed.


Lemma insertPayload_copied w id b k :
  In k ["client_name"; "email"; "phone"; "dob"; "procedure_type"; "procedure_site";
        "signature_path"; "id_photo_front_path"] →
  insertPayload w id b !! k = Some (nullish (get b k)).
Proof.
  intros Hk. repeat (destruct Hk as [<- | Hk]; [reflexivity|]). destruct Hk.
Qed.

Lemma insertPayload_send_aftercare w id b :
  insertPayload w id b !! "send_aftercare"
  = Some (JBool (truthy (get b "send_aftercare"))).
Proof. reflexivity. Qed.

(** *** Where the events of a run come from *)

Lemma POST_event_inv w body ev :
  valid body → In ev (POST w (Resolves body)).1 →
  let id := resolve_waiver_id w body in
  In ev (signature_step w id body).1
  ∨ (∃ b1 u1, (signature_step w id body).2 = Returns (b1, u1)
       ∧ In ev (id_front_step w id b1 u1).1)
  ∨ (∃ b1 u1 b2 u2,
       (signature_step w id body).2 = Returns (b1, u1)
       ∧ (id_front_step w id b1 u1).2 = Returns (b2, u2)
       ∧ (∃ l, Promise_all u2 = ([], Returns l))
       ∧ (ev = Insert (insertPayload w id b2)
          ∨ (insert w (insertPayload w id b2) = Resolves None
             ∧ In ev (mail_step w b2).1)))
  ∨ is_console ev = true.
Proof.
  intros Hv Hin id. rewrite (POST_valid_run w body Hv) in Hin. fold id in Hin.
  destruct (signature_step w id body) as [t1 [[b1 u1]|e1]]; cbn [fst snd] in *.
  2:{ apply in_app_or in Hin as [Hin | [<- | []]]; auto. }
  destruct (id_front_step w id b1 u1) as [t2 [[b2 u2]|e2]] eqn:E2; cbn [fst snd] in *.
  2:{ apply in_app_or in Hin as [Hin | Hin]; [by left|].
      apply in_app_or in Hin as [Hin | [<- | []]]; [|by auto].
      right. left. exists b1, u1. by rewrite E2. }
  pose proof (Promise_all_trace u2) as Ht3.
  destruct (Promise_all u2) as [t3 [l|e3]] eqn:E3; cbn [fst snd] in *; subst t3;
    cbn [app] in Hin.
  2:{ apply in_app_or in Hin as [Hin | Hin]; [by left|].
      apply in_app_or in Hin as [Hin | [<- | []]]; [|by auto].
      right. left. exists b1, u1. by rewrite E2. }
  assert (H2 : In ev t2 → ∃ b1' u1', Returns (b1, u1) = Returns (b1', u1')
            ∧ In ev (id_front_step w id b1' u1').1).
  { intros H. exists b1, u1. by rewrite E2. }
  assert (H3 : ev = Insert (insertPayload w id b2)
               ∨ (insert w (insertPayload w id b2) = Resolves None
                  ∧ In ev (mail_step w b2).1) →
    ∃ b1' u1' b2' u2', Returns (b1, u1) = Returns (b1', u1')
      ∧ (id_front_step w id b1' u1').2 = Returns (b2', u2')
      ∧ (∃ l, Promise_all u2' = ([], Returns l))
      ∧ (ev = Insert (insertPayload w id b2')
         ∨ (insert w (insertPayload w id b2') = Resolves None
            ∧ In ev (mail_step w b2').1))).
  { intros H. exists b1, u1, b2, u2. rewrite E2, E3. eauto 10. }
  destruct (insert w (insertPayload w id b2)) as [[error|]|reason] eqn:Ei;
    [|destruct (mail_step w b2) as [t4 [[]|e4]] eqn:E4|];
    cbn [fst snd] in *;
    repeat (apply in_app_or in Hin as [Hin | Hin]);
    repeat (destruct Hin as [<- | Hin]);
    try (apply in_app_or in Hin as [Hin | Hin]);
    repeat (destruct Hin as [<- | Hin]);
    try destruct Hin; auto 10.
Qed.

Lemma signature_step_events w id body ev :
  In ev (signature_step w id body).1 →
  ∃ path c ct, ev = Upload path c ct ∧ namespaced id path.
Proof.
  rewrite signature_step_cases.
  destruct (dataUrlToBytes _) as [[d|]|e]; [|done..].
  destruct (toString id) as [s|] eqn:E; [|done].
  intros [<- | []]. do 3 eexists. split; [done|]. by exists s, "signature.png".
Qed.

Lemma id_front_step_events w id body uploads ev :
  In ev (id_front_step w id body uploads).1 →
  ∃ path c ct, ev = Upload path c ct ∧ namespaced id path.
Proof.
  rewrite id_front_step_cases.
  destruct (dataUrlToBytes _) as [[d|]|e]; [|done..].
  destruct (toString id) as [s|] eqn:E; [|done].
  intros [<- | []]. do 3 eexists. split; [done|].
  by exists s, ("id_front." +:+ ext_of (mime d)).
Qed.

Lemma sendAftercareEmail_events w to name ev :
  In ev (sendAftercareEmail w to name).1 → is_fetch ev = true ∨ is_console ev = true.
Proof.
  unfold sendAftercareEmail. run.
  destruct (or_else name (JStr "")); try done.
  destruct (fetch w) as [r|reason]; cbn [app].
  - destruct (r_ok r); cbn [negb app].
    + intros [<- | [<- | []]]; auto.
    + destruct (r_text r); cbn [app].
      * intros [<- | [<- | []]]; auto.
      * intros [<- | []]; auto.
  - intros [<- | []]; auto.
Qed.

Lemma mail_step_events w body ev :
  In ev (mail_step w body).1 → is_fetch ev = true ∨ is_console ev = true.
Proof.
  unfold mail_step. destruct (_ && _); [apply sendAftercareEmail_events|done].
Qed.




Lemma inserted_app t t' : inserted (t ++ t') = inserted t ++ inserted t'.
Proof. apply omap_app. Qed.

Lemma inserted_none t :
  (∀ ev, In ev t → is_insert ev = false) → inserted t = [].
Proof.
  induction t as [|ev t IH]; intros H; [done|].
  unfold inserted. cbn [omap list_omap].
  pose proof (H ev (or_introl eq_refl)) as Hev.
  destruct ev; try done; apply IH; intros ev' Hin; apply H; by right.
Qed.

Lemma steps_insert_nothing w id body :
  inserted (signature_step w id body).1 = []
  ∧ ∀ b u, inserted (id_front_step w id b u).1 = [].
Proof.
  split; [|intros b u]; apply inserted_none; intros ev Hin.
  - by apply signature_step_events in Hin as (? & ? & ? & -> & _).
  - by apply id_front_step_events in Hin as (? & ? & ? & -> & _).
Qed.


(** A run that answers 200 went through every stage, and inserted once. *)
Lemma POST_success w body :
  valid body → status (POST w (Resolves body)).2 = 200 →
  let id := resolve_waiver_id w body in
  ∃ t1 b1 u1 t2 b2 u2 t4,
    signature_step w id body = (t1, Returns (b1, u1))
    ∧ id_front_step w id b1 u1 = (t2, Returns (b2, u2))
    ∧ insert w (insertPayload w id b2) = Resolves None
    ∧ mail_step w b2 = (t4, Returns tt)
    ∧ POST w (Resolves body)
      = (t1 ++ t2 ++ Insert (insertPayload w id b2) :: t4, ok_response id).
Proof.
  intros Hv Hs id. pose proof (POST_valid_run w body Hv) as Hrun.
  cbv zeta in Hrun. fold id in Hrun.
  destruct (signature_step w id body) as [t1 [[b1 u1]|e1]] eqn:E1;
    [|by rewrite Hrun in Hs].
  destruct (id_front_step w id b1 u1) as [t2 [[b2 u2]|e2]] eqn:E2;
    [|by rewrite Hrun in Hs].
  pose proof (Promise_all_trace u2) as Ht3.
  destruct (Promise_all u2) as [t3 [l|e3]]; [|by rewrite Hrun in Hs].
  cbn [fst] in Ht3. subst t3.
  destruct (insert w (insertPayload w id b2)) as [[error|]|reason] eqn:Ei;
    [by rewrite Hrun in Hs| |by rewrite Hrun in Hs].
  destruct (mail_step w b2) as [t4 [[]|e4]] eqn:E4; [|by rewrite Hrun in Hs].
  by exists t1, b1, u1, t2, b2, u2, t4.
Qed.



(** ** Concrete runs *)

Example calm_run :
  POST calm (Resolves ann_signed)
  = ([ Upload "waivers/BAT-LOCAL-4711/signature.png" ["h"; "i"]%byte "image/png";
       Insert (ann_row (JStr "waivers/BAT-LOCAL-4711/signature.png"));
       Fetch ann_mail;
       ConsoleLog "Brevo send ok" ],
     ok_response (JStr "BAT-LOCAL-4711")).
Proof. vm_compute. reflexivity. Qed.

(** C5 (the code departs from it): the storage service answers the
    signature upload with an error result; the handler never looks at the
    result of an upload, inserts the row and answers 200 with [ok: true]. *)
Theorem C5_upload_error_is_ignored :
  upload storage_refuses "waivers/BAT-LOCAL-4711/signature.png"
  = Resolves (Some "Bucket not found")
  ∧ POST storage_refuses (Resolves ann_signed)
    = ([ Upload "waivers/BAT-LOCAL-4711/signature.png" ["h"; "i"]%byte "image/png";
         Insert (ann_row (JStr "waivers/BAT-LOCAL-4711/signature.png"));
         Fetch ann_mail;
         ConsoleLog "Brevo send ok" ],
       ok_response (JStr "BAT-LOCAL-4711"))
  ∧ status (ok_response (JStr "BAT-LOCAL-4711")) = 200
  ∧ body_json (ok_response (JStr "BAT-LOCAL-4711")) !! "ok" = Some (JBool true).
Proof. split; [reflexivity|]. split; [|done]. vm_compute. reflexivity. Qed.

(** C3 (the code departs from it): the row is inserted, the dispatch is
    attempted once, the request to the mail API fails on the network; the
    rejection leaves [sendAftercareEmail], reaches the [catch] of the
    handler, and the caller gets status 500 with [ok: false]. *)
Theorem C3_unreachable_mail_fails_the_request :
  POST mail_unreachable (Resolves (JObj ann))
  = ([ Insert (ann_row JNull);
       Fetch ann_mail;
       ConsoleError "Handler exception" ],
     server_error)
  ∧ status server_error = 500
  ∧ body_json server_error !! "ok" = Some (JBool false).
Proof. split; [|done]. vm_compute. reflexivity. Qed.

(** *** What the two attachment blocks return *)

Lemma signature_step_returns w id body b1 u1 :
  (signature_step w id body).2 = Returns (b1, u1) →
  (dataUrlToBytes (get body "signature_png") = Returns None ∧ b1 = body ∧ u1 = [])
  ∨ (∃ d s, dataUrlToBytes (get body "signature_png") = Returns (Some d)
       ∧ toString id = Some s
       ∧ b1 = delete_field
                (set_field body "signature_path"
                   (JStr ("waivers/" +:+ s +:+ "/" +:+ "signature.png")))
                "signature_png"
       ∧ u1 = [upload w ("waivers/" +:+ s +:+ "/" +:+ "signature.png")]).
Proof.
  rewrite signature_step_cases.
  destruct (dataUrlToBytes _) as [[d|]|e]; [|intros [= <- <-]; by left|done].
  destruct (toString id) as [s|]; [|done].
  intros [= <- <-]. right. by exists d, s.
Qed.

Lemma id_front_step_returns w id body uploads b2 u2 :
  (id_front_step w id body uploads).2 = Returns (b2, u2) →
  (dataUrlToBytes (get body "id_photo_front") = Returns None
   ∧ b2 = body ∧ u2 = uploads)
  ∨ (∃ d s, dataUrlToBytes (get body "id_photo_front") = Returns (Some d)
       ∧ toString id = Some s
       ∧ b2 = delete_field
                (set_field body "id_photo_front_path"
                   (JStr ("waivers/" +:+ s +:+ "/" +:+ ("id_front." +:+ ext_of (mime d)))))
                "id_photo_front"
       ∧ u2 = uploads
              ++ [upload w ("waivers/" +:+ s +:+ "/" +:+ ("id_front." +:+ ext_of (mime d)))]).
Proof.
  rewrite id_front_step_cases.
  destruct (dataUrlToBytes _) as [[d|]|e]; [|intros [= <- <-]; by left|done].
  destruct (toString id) as [s|]; [|done].
  intros [= <- <-]. right. by exists d, s.
Qed.

(** The promise of every upload a block issues is among those it hands on. *)
Lemma signature_step_pending w id body b1 u1 path c ct :
  (signature_step w id body).2 = Returns (b1, u1) →
  In (Upload path c ct) (signature_step w id body).1 → In (upload w path) u1.
Proof.
  rewrite signature_step_cases.
  destruct (dataUrlToBytes _) as [[d|]|e]; [|done..].
  destruct (toString id) as [s|]; [|done].
  intros [= <- <-] [[= <- _ _] | []]. by left.
Qed.

Lemma id_front_step_pending w id body uploads b2 u2 :
  (id_front_step w id body uploads).2 = Returns (b2, u2) →
  (∀ p, In p uploads → In p u2)
  ∧ ∀ path c ct, In (Upload path c ct) (id_front_step w id body uploads).1 →
                 In (upload w path) u2.
Proof.
  rewrite id_front_step_cases.
  destruct (dataUrlToBytes _) as [[d|]|e]; [|by intros [= <- <-]|done].
  destruct (toString id) as [s|]; [|done].
  intros [= <- <-]. split.
  - intros p Hp. apply in_or_app. by left.
  - intros path c ct [[= <- _ _] | []]. apply in_or_app. right. by left.
Qed.

(** X25.  A rejected upload promise ends the run in the [catch] clause,
    before any insert: when an upload the run has issued rejects, the answer
    is the 500 of the [catch] clause and no row is inserted (the part of C5
    the handler does implement). *)
Lemma rejected_upload_aborts w body path c ct reason :
  valid body →
  In (Upload path c ct) (POST w (Resolves body)).1 →
  upload w path = Rejects reason →
  (POST w (Resolves body)).2 = server_error
  ∧ inserted (POST w (Resolves body)).1 = [].
Proof.
  intros Hv Hin Hrej. pose proof (POST_valid_run w body Hv) as Hrun.
  cbv zeta in Hrun. set (id := resolve_waiver_id w body) in *.
  destruct (steps_insert_nothing w id body) as [Hn1 Hn2].
  destruct (signature_step w id body) as [t1 [[b1 u1]|e1]] eqn:E1.
  2:{ rewrite Hrun. cbn [fst snd] in *. split; [done|].
      by rewrite inserted_app, Hn1. }
  specialize (Hn2 b1 u1).
  destruct (id_front_step w id b1 u1) as [t2 [[b2 u2]|e2]] eqn:E2.
  2:{ rewrite Hrun. cbn [fst snd] in *. split; [done|].
      by rewrite !inserted_app, Hn1, Hn2. }
  assert (Hthrows : ∃ e, (Promise_all u2).2 = Throws e).
  { apply (Promise_all_rejects u2 reason). rewrite <- Hrej.
    pose proof (signature_step_pending w id body b1 u1 path c ct) as Hp1.
    pose proof (id_front_step_pending w id b1 u1 b2 u2) as Hp2.
    rewrite E1 in Hp1. rewrite E2 in Hp2. cbn [fst snd] in *.
    destruct (Hp2 eq_refl) as [Hkeep Hnew].
    assert (Hwhere : In (Upload path c ct) t1 ∨ In (Upload path c ct) t2).
    { rewrite Hrun in Hin. clear Hrun.
      pose proof (Promise_all_trace u2) as Ht3.
      destruct (Promise_all u2) as [t3 [l|e3]]; cbn [fst] in Ht3; subst t3.
      - destruct (insert w _) as [[error|]|r'];
          [|destruct (mail_step w b2) as [t4 [[]|e4]] eqn:E4|];
          cbn [fst app] in Hin;
          apply in_app_or in Hin as [Hin | Hin]; auto;
          apply in_app_or in Hin as [Hin | Hin]; auto;
          repeat (destruct Hin as [[=] | Hin]); try done.
        + pose proof (mail_step_events w b2 (Upload path c ct)) as Hm.
          rewrite E4 in Hm. by destruct (Hm Hin).
        + apply in_app_or in Hin as [Hin | Hin].
          * pose proof (mail_step_events w b2 (Upload path c ct)) as Hm.
            rewrite E4 in Hm. by destruct (Hm Hin).
          * by repeat (destruct Hin as [[=] | Hin]).
      - cbn [fst app] in Hin.
        apply in_app_or in Hin as [Hin | Hin]; auto.
        apply in_app_or in Hin as [Hin | Hin]; auto.
        by repeat (destruct Hin as [[=] | Hin]). }
    destruct Hwhere as [H | H]; [apply Hkeep, Hp1; done|by apply (Hnew path c ct)]. }
  destruct Hthrows as [e He].
  pose proof (Promise_all_trace u2) as Ht3.
  destruct (Promise_all u2) as [t3 [l|e3]]; cbn [fst snd] in *; [done|]. subst t3.
  rewrite Hrun. cbn [fst snd app]. split; [done|].
  by rewrite !inserted_app, Hn1, Hn2.
Qed.

(** The parts of C3 the handler does implement. *)
Lemma refused_mail_is_silent w to name s r text :
  or_else name (JStr "") = JStr s →
  fetch w = Resolves r → r_ok r = false → r_text r = Resolves text →
  ∃ m, sendAftercareEmail w to name
       = ([Fetch m; ConsoleError "Brevo send error"], Returns tt).
Proof.
  intros Hn Hf Hok Ht. unfold sendAftercareEmail. run.
  rewrite Hn, Hf. cbn [app]. rewrite Hok. cbn [negb]. rewrite Ht. by eexists.
Qed.

Lemma one_dispatch_at_most w to name :
  (length (List.filter is_fetch (sendAftercareEmail w to name).1) ≤ 1)%nat.
Proof.
  unfold sendAftercareEmail. run.
  destruct (or_else name (JStr "")); cbn; try lia.
  destruct (fetch w) as [r|reason]; cbn; [|lia].
  destruct (r_ok r); cbn; [lia|]. destruct (r_text r); cbn; lia.
Qed.

(** X26.  A request to the mail API is sent only in runs that inserted the
    row and whose insert succeeded. *)
Lemma dispatch_follows_insert w body m :
  valid body → In (Fetch m) (POST w (Resolves body)).1 →
  ∃ row, In (Insert row) (POST w (Resolves body)).1 ∧ insert w row = Resolves None.
Proof.
  intros Hv Hin.
  destruct (POST_event_inv w body _ Hv Hin) as [H | [H | [H | H]]].
  - by apply signature_step_events in H as (? & ? & ? & ? & _).
  - destruct H as (b1 & u1 & _ & H).
    by apply id_front_step_events in H as (? & ? & ? & ? & _).
  - destruct H as (b1 & u1 & b2 & u2 & E1 & E2 & [l E3] & [H | [Hi H]]); [done|].
    eexists. split; [|exact Hi].
    rewrite (POST_valid_run w body Hv). cbv zeta.
    destruct (signature_step _ _ _) as [t1 [[b1' u1']|e1]]; [|done].
    cbn [snd] in E1. injection E1 as -> ->.
    destruct (id_front_step _ _ _ _) as [t2 [[b2' u2']|e2]]; [|done].
    cbn [snd] in E2. injection E2 as -> ->.
    rewrite E3, Hi.
    destruct (mail_step w b2) as [t4 [[]|e4]]; cbn [fst app];
      apply in_or_app; right; apply in_or_app; right; by left.
  - done.
Qed.

(** ** Attachments that are not there, or not tagged *)




(** *** The working record when the row is built *)

Lemma working_record w body b1 u1 b2 u2 :
  valid body →
  let id := resolve_waiver_id w body in
  (signature_step w id body).2 = Returns (b1, u1) →
  (id_front_step w id b1 u1).2 = Returns (b2, u2) →
  (∀ k, ¬ In k attachment_names → get b2 k = get body k)
  ∧ match dataUrlToBytes (get body "signature_png") with
    | Returns (Some d) =>
        ∃ s, toString id = Some s
             ∧ get b2 "signature_path"
               = Some (JStr ("waivers/" +:+ s +:+ "/" +:+ "signature.png"))
             ∧ get b2 "signature_png" = None
    | Returns None => get b2 "signature_path" = get body "signature_path"
    | Throws _ => False
    end
  ∧ match dataUrlToBytes (get body "id_photo_front") with
    | Returns (Some d) =>
        ∃ s, toString id = Some s
             ∧ get b2 "id_photo_front_path"
               = Some (JStr ("waivers/" +:+ s +:+ "/" +:+ ("id_front." +:+ ext_of (mime d))))
             ∧ get b2 "id_photo_front" = None
    | Returns None => get b2 "id_photo_front_path" = get body "id_photo_front_path"
    | Throws _ => False
    end.
Proof.
  intros Hv id E1 E2. destruct (valid_is_object body Hv) as [fields ->].
  apply signature_step_returns in E1. apply id_front_step_returns in E2.
  assert (Hidf : get b1 "id_photo_front" = get (JObj fields) "id_photo_front"
                 ∧ get b1 "id_photo_front_path" = get (JObj fields) "id_photo_front_path"
                 ∧ ∃ f1, b1 = JObj f1).
  { destruct E1 as [(_ & -> & _) | (d & s & _ & _ & -> & _)]; [by eauto|].
    rewrite !get_delete_field_ne, !get_set_field_ne by done. by eauto. }
  destruct Hidf as (Hidf1 & Hidf2 & f1 & Hb1).
  split; [|split].
  - intros k Hk.
    assert (k ≠ "signature_png" ∧ k ≠ "signature_path"
            ∧ k ≠ "id_photo_front" ∧ k ≠ "id_photo_front_path") as (? & ? & ? & ?).
    { unfold attachment_names in Hk. cbn [In] in Hk. intuition. }
    transitivity (get b1 k).
    + destruct E2 as [(_ & -> & _) | (d & s & _ & _ & -> & _)]; [done|].
      by rewrite get_delete_field_ne, get_set_field_ne.
    + destruct E1 as [(_ & -> & _) | (d & s & _ & _ & -> & _)]; [done|].
      by rewrite get_delete_field_ne, get_set_field_ne.
  - assert (H2 : get b2 "signature_path" = get b1 "signature_path"
                 ∧ get b2 "signature_png" = get b1 "signature_png").
    { destruct E2 as [(_ & -> & _) | (d & s & _ & _ & -> & _)]; [done|].
      by rewrite !get_delete_field_ne, !get_set_field_ne. }
    destruct H2 as [-> ->].
    destruct E1 as [(-> & -> & _) | (d & s & -> & Hs & -> & _)]; [done|].
    exists s. split; [done|].
    rewrite get_delete_field_ne, get_set_field, get_delete_field by eauto. done.
  - rewrite <- Hidf1, <- Hidf2.
    destruct E2 as [(-> & -> & _) | (d & s & -> & Hs & -> & _)]; [done|].
    exists s. split; [done|].
    rewrite get_delete_field_ne, get_set_field, get_delete_field by eauto. done.
Qed.

Lemma inserted_row_inv w body row :
  valid body → In (Insert row) (POST w (Resolves body)).1 →
  let id := resolve_waiver_id w body in
  ∃ b1 u1 b2 u2,
    (signature_step w id body).2 = Returns (b1, u1)
    ∧ (id_front_step w id b1 u1).2 = Returns (b2, u2)
    ∧ row = insertPayload w id b2.
Proof.
  intros Hv Hin id.
  destruct (POST_event_inv w body _ Hv Hin) as [H | [H | [H | H]]]; fold id in H.
  - by apply signature_step_events in H as (? & ? & ? & ? & _).
  - destruct H as (b1 & u1 & _ & H).
    by apply id_front_step_events in H as (? & ? & ? & ? & _).
  - destruct H as (b1 & u1 & b2 & u2 & E1 & E2 & _ & [[= ->] | [_ H]]).
    + by exists b1, u1, b2, u2.
    + by apply mail_step_events in H as [H | H].
  - done.
Qed.


(** C2, as the code has it: the row has the eleven columns of
    [insertPayload] and no other; [waiver_id] is the resolved identifier;
    [client_name], [email], [phone], [dob], [procedure_type] and
    [procedure_site] are copied from the body ([null] when absent);
    [send_aftercare] is the body's flag made a boolean; [timestamp_iso] is
    the server's clock; [signature_path] and [id_photo_front_path] stand in
    for the attachments.  Nothing else of the submission is kept. *)
Theorem C2_row_is_the_eleven_columns (w : world) (body : json)
    (row : gmap string json) :
  valid body →
  In (Insert row) (POST w (Resolves body)).1 →
  dom row = list_to_set columns
  ∧ row !! "waiver_id" = Some (resolve_waiver_id w body)
  ∧ (∀ k, In k ["client_name"; "email"; "phone"; "dob"; "procedure_type";
                "procedure_site"] →
     row !! k = Some (nullish (get body k)))
  ∧ row !! "send_aftercare" = Some (JBool (truthy (get body "send_aftercare")))
  ∧ row !! "timestamp_iso" = Some (JStr (toISOString w))
  ∧ is_Some (row !! "signature_path")
  ∧ is_Some (row !! "id_photo_front_path")
  ∧ (∀ k, ¬ In k columns → row !! k = None).
Proof.
  intros Hv Hin.
  destruct (inserted_row_inv w body row Hv Hin) as (b1 & u1 & b2 & u2 & E1 & E2 & ->).
  destruct (working_record w body b1 u1 b2 u2 Hv E1 E2) as (Hsame & _ & _).
  set (id := resolve_waiver_id w body) in *.
  split; [apply insertPayload_dom|]. split; [reflexivity|].
  split; [|split; [|split; [|split; [|split]]]].
  - intros k Hk. rewrite <- Hsame.
    + apply insertPayload_copied. cbn in Hk |- *. tauto.
    + unfold attachment_names. cbn in Hk |- *.
      intros Hbad. repeat (destruct Hk as [<- | Hk]; [by intuition|]). done.
  - rewrite insertPayload_send_aftercare, Hsame; [done|].
    unfold attachment_names. cbn. by intuition.
  - reflexivity.
  - by eexists.
  - by eexists.
  - intros k Hk. apply not_elem_of_dom. rewrite insertPayload_dom.
    intros Hd. apply Hk. apply elem_of_list_to_set in Hd.
    by apply list_elem_of_In.
Qed.

(** ** Counterexamples and instances *)

(** C2, counterexample: the form's payload for Ann carries her address, a
    medical flag, a consent acknowledgment and the user agent; the row the
    handler inserts for it has none of them, and its [timestamp_iso] is the
    server's, not the client's. *)
Lemma C2_counterexample :
  handleSubmit ann_form (clear phone_canvas) 4711 ["h"; "i"]%byte "Mozilla/5.0"
    "2024-10-27T03:33:19.000Z" = Sent (JObj ann_payload)
  ∧ inserted (POST calm (Resolves (JObj ann_payload))).1 = [ann_full_row]
  ∧ (ann_payload !! "address" = Some (JStr "12 Elm St")
     ∧ ann_full_row !! "address" = None)
  ∧ (ann_payload !! "mh_diabetes" = Some (JBool true)
     ∧ ann_full_row !! "mh_diabetes" = None)
  ∧ (ann_payload !! "ack_age" = Some (JBool true)
     ∧ ann_full_row !! "ack_age" = None)
  ∧ (ann_payload !! "user_agent" = Some (JStr "Mozilla/5.0")
     ∧ ann_full_row !! "user_agent" = None).
Proof. repeat split; vm_compute; reflexivity. Qed.


(** C8, counterexample: a MIME type with a parameter comes back cut at
    its first semicolon. *)
Lemma C8_counterexample :
  dataUrlToBytes
    (JStr <$> fileToDataURL
       (Some {| file_bytes := ["h"; "i"]%byte;
                file_type := "image/svg+xml;charset=utf-8" |}))
  = Returns (Some {| bytes := ["h"; "i"]%byte; mime := "image/svg+xml" |})
  ∧ "image/svg+xml" ≠ "image/svg+xml;charset=utf-8".
Proof. split; [vm_compute; reflexivity|discriminate]. Qed.


Lemma C1_witness :
  (truthy (get (JObj (delete "email" ann)) "client_name") = false
   ∨ truthy (get (JObj (delete "email" ann)) "email") = false)
  ∧ (POST calm (Resolves (JObj (delete "email" ann)))).1 = []
  ∧ status (POST calm (Resolves (JObj (delete "email" ann)))).2 = 400.
Proof.
  assert (H : truthy (get (JObj (delete "email" ann)) "client_name") = false
              ∨ truthy (get (JObj (delete "email" ann)) "email") = false)
    by (right; reflexivity).
  split; [exact H|].
  pose proof (C1_missing_field_rejected calm _ H) as T.
  destruct (POST calm _) as [trace r]. cbn [fst snd]. tauto.
Defined.

Lemma C4_witness :
  0 < parent_clientWidth phone_canvas
  ∧ hasAnyInk (clear phone_canvas) = true
  ∧ hasAnyInk
      (surface
         (fold_left (handle_pointer no_coverage)
            [PointerDown 10 10; PointerMove 40 25; PointerUp]
            {| surface := clear phone_canvas; drawing := false;
               lastX := 0; lastY := 0 |})) = true.
Proof.
  split; [reflexivity|].
  apply (C4_cleared_surface_has_ink phone_canvas no_coverage). reflexivity.
Defined.

Lemma ann_signed_valid : valid ann_signed.
Proof. split; reflexivity. Defined.



Lemma C8_witness :
  Js.includes "," "image/png" = false
  ∧ Js.includes ";" "image/png" = false
  ∧ dataUrlToBytes
      (JStr <$> fileToDataURL
         (Some {| file_bytes := ["h"; "i"]%byte; file_type := "image/png" |}))
    = Returns (Some {| bytes := ["h"; "i"]%byte; mime := "image/png" |}).
Proof.
  split; [reflexivity|]. split; [reflexivity|].
  apply C8_data_url_round_trip; reflexivity.
Defined.



Lemma ann_signed_inserts :
  In (Insert (ann_row (JStr "waivers/BAT-LOCAL-4711/signature.png")))
     (POST calm (Resolves ann_signed)).1.
Proof. rewrite calm_run. right. by left. Defined.


Lemma C2_witness :
  valid ann_signed
  ∧ In (Insert (ann_row (JStr "waivers/BAT-LOCAL-4711/signature.png")))
       (POST calm (Resolves ann_signed)).1
  ∧ dom (ann_row (JStr "waivers/BAT-LOCAL-4711/signature.png"))
    = list_to_set columns.
Proof.
  split; [exact ann_signed_valid|]. split; [exact ann_signed_inserts|].
  apply (C2_row_is_the_eleven_columns calm ann_signed _ ann_signed_valid
           ann_signed_inserts).
Defined.

(** * Further properties of the code *)

(** ** The handler: answers *)

Lemma valid_dec body : {valid body} + {¬ valid body}.
Proof.
  unfold valid.
  destruct (truthy (get body "client_name")), (truthy (get body "email"));
    first [left; done | right; intros [? ?]; done].
Qed.

Lemma POST_invalid w body :
  ¬ valid body → POST w (Resolves body) = ([], missing_fields).
Proof.
  intros Hn. unfold POST, POST_body. run.
  assert (Hc : negb (truthy (get body "client_name"))
               || negb (truthy (get body "email")) = true).
  { unfold valid in Hn.
    destruct (truthy (get body "client_name")), (truthy (get body "email"));
      try done. by destruct Hn. }
  by rewrite Hc.
Qed.

Lemma POST_answers w req :
  (POST w req).2 = missing_fields
  ∨ (POST w req).2 = server_error
  ∨ (∃ error, (POST w req).2 = db_error_response error)
  ∨ (∃ id, (POST w req).2 = ok_response id).
Proof.
  destruct req as [body|reason]; [|right; by left].
  destruct (valid_dec body) as [Hv | Hn]; [|left; by rewrite POST_invalid].
  rewrite (POST_valid_run w body Hv). cbv zeta.
  destruct (signature_step _ _ _) as [t1 [[b1 u1]|e1]]; [|by auto].
  destruct (id_front_step _ _ _ _) as [t2 [[b2 u2]|e2]]; [|by auto].
  destruct (Promise_all u2) as [t3 [l|e3]]; [|by auto].
  destruct (insert w _) as [[error|]|reason]; [by eauto 6| |by auto].
  destruct (mail_step w b2) as [t4 [[]|e4]]; by eauto 6.
Qed.

(** X1.  Whatever the request and the world, the handler answers with
    status 200, 400 or 500, and the [ok] field of the answer is [true]
    exactly for status 200. *)
Theorem POST_status_and_ok (w : world) (req : promise json) :
  (status (POST w req).2 = 200
   ∧ body_json (POST w req).2 !! "ok" = Some (JBool true))
  ∨ (status (POST w req).2 = 400
     ∧ body_json (POST w req).2 !! "ok" = Some (JBool false))
  ∨ (status (POST w req).2 = 500
     ∧ body_json (POST w req).2 !! "ok" = Some (JBool false)).
Proof.
  destruct (POST_answers w req) as [-> | [-> | [[error ->] | [id ->]]]].
  - right. left. by split.
  - right. right. by split.
  - right. right. by split.
  - left. by split.
Qed.

Lemma POST_400_iff (w : world) (body : json) :
  status (POST w (Resolves body)).2 = 400
  ↔ truthy (get body "client_name") = false ∨ truthy (get body "email") = false.
Proof.
  split.
  - intros Hs. destruct (valid_dec body) as [Hv | Hn].
    + exfalso. revert Hs. rewrite (POST_valid_run w body Hv). cbv zeta.
      destruct (signature_step _ _ _) as [t1 [[b1 u1]|e1]]; [|done].
      destruct (id_front_step _ _ _ _) as [t2 [[b2 u2]|e2]]; [|done].
      destruct (Promise_all u2) as [t3 [l|e3]]; [|done].
      destruct (insert w _) as [[error|]|reason]; [done| |done].
      by destruct (mail_step w b2) as [t4 [[]|e4]].
    + unfold valid in Hn.
      destruct (truthy (get body "client_name")), (truthy (get body "email"));
        auto. by destruct Hn.
  - intros H. rewrite POST_invalid; [done|]. unfold valid. intros [H1 H2].
    destruct H as [H | H]; congruence.
Qed.

(** X2.  On a parsed body the handler answers 400 exactly when the body
    has no truthy [client_name] or no truthy [email]. *)
Theorem POST_400_iff_field_missing (w : world) (body : json) :
  status (POST w (Resolves body)).2 = 400
  ↔ truthy (get body "client_name") = false ∨ truthy (get body "email") = false.
Proof. apply POST_400_iff. Qed.

(** ** The handler: effects *)

Lemma signature_step_trace w id body :
  Forall (fun ev => is_upload ev = true) (signature_step w id body).1
  ∧ (length (signature_step w id body).1 ≤ 1)%nat.
Proof.
  rewrite signature_step_cases.
  destruct (dataUrlToBytes _) as [[d|]|e]; cbn; auto.
  destruct (toString id); cbn; auto.
Qed.

Lemma id_front_step_trace w id body uploads :
  Forall (fun ev => is_upload ev = true) (id_front_step w id body uploads).1
  ∧ (length (id_front_step w id body uploads).1 ≤ 1)%nat.
Proof.
  rewrite id_front_step_cases.
  destruct (dataUrlToBytes _) as [[d|]|e]; cbn; auto.
  destruct (toString id); cbn; auto.
Qed.

Lemma mail_step_trace w body :
  Forall (fun ev => is_fetch ev = true ∨ is_console ev = true) (mail_step w body).1
  ∧ (length (List.filter is_fetch (mail_step w body).1) ≤ 1)%nat.
Proof.
  split.
  - apply Forall_forall. intros ev Hin. apply list_elem_of_In in Hin.
    by apply mail_step_events in Hin.
  - unfold mail_step. destruct (_ && _); [apply one_dispatch_at_most|cbn; lia].
Qed.

(** X3.  The effects of a run come in one order and in bounded number:
    first the uploads (two at most), then the insert (one at most), then
    what the mail step and the console add, with one request to the mail API
    at most.  No upload follows the insert, no insert follows a dispatch. *)
Theorem POST_trace_shape (w : world) (req : promise json) :
  ∃ ups ins rest,
    (POST w req).1 = ups ++ ins ++ rest
    ∧ Forall (fun ev => is_upload ev = true) ups ∧ (length ups ≤ 2)%nat
    ∧ Forall (fun ev => is_insert ev = true) ins ∧ (length ins ≤ 1)%nat
    ∧ Forall (fun ev => is_fetch ev = true ∨ is_console ev = true) rest
    ∧ (length (List.filter is_fetch rest) ≤ 1)%nat.
Proof.
  destruct req as [body|reason].
  2:{ exists [], [], [ConsoleError "Handler exception"]. cbn.
      repeat split; auto. }
  destruct (valid_dec body) as [Hv | Hn].
  2:{ exists [], [], []. rewrite POST_invalid by done. cbn. repeat split; auto. }
  rewrite (POST_valid_run w body Hv). cbv zeta.
  set (id := resolve_waiver_id w body).
  destruct (signature_step_trace w id body) as [Hu1 Hl1].
  destruct (signature_step w id body) as [t1 [[b1 u1]|e1]]; cbn [fst] in *.
  { destruct (id_front_step_trace w id b1 u1) as [Hu2 Hl2].
    destruct (id_front_step w id b1 u1) as [t2 [[b2 u2]|e2]]; cbn [fst] in *.
    { pose proof (Promise_all_trace u2) as Ht3.
      destruct (Promise_all u2) as [t3 [l|e3]]; cbn [fst] in Ht3; subst t3.
      { destruct (insert w _) as [[error|]|reason].
        - exists (t1 ++ t2), [Insert (insertPayload w id b2)],
            [ConsoleError "DB insert error"].
          cbn [fst app]. rewrite <- app_assoc. split; [done|].
          rewrite length_app. repeat split; auto using Forall_app_2; cbn; lia.
        - destruct (mail_step_trace w b2) as [Hm Hf].
          destruct (mail_step w b2) as [t4 [[]|e4]]; cbn [fst] in *.
          + exists (t1 ++ t2), [Insert (insertPayload w id b2)], t4.
            rewrite <- app_assoc. split; [done|].
            rewrite length_app. repeat split; auto using Forall_app_2; cbn; lia.
          + exists (t1 ++ t2), [Insert (insertPayload w id b2)],
              (t4 ++ [ConsoleError "Handler exception"]).
            rewrite <- app_assoc. split; [done|].
            rewrite length_app, List.filter_app, length_app.
            repeat split; auto using Forall_app_2; cbn; lia.
        - exists (t1 ++ t2), [Insert (insertPayload w id b2)],
            [ConsoleError "Handler exception"].
          cbn [fst app]. rewrite <- app_assoc. split; [done|].
          rewrite length_app. repeat split; auto using Forall_app_2; cbn; lia. }
      exists (t1 ++ t2), [], [ConsoleError "Handler exception"].
      cbn [fst app]. rewrite <- app_assoc. split; [done|].
      rewrite length_app. repeat split; auto using Forall_app_2; cbn; lia. }
    exists (t1 ++ t2), [], [ConsoleError "Handler exception"].
    cbn [fst app]. rewrite <- app_assoc. split; [done|].
    rewrite length_app. repeat split; auto using Forall_app_2; cbn; lia. }
  exists t1, [], [ConsoleError "Handler exception"].
  cbn [fst app]. split; [done|]. repeat split; auto; cbn; lia.
Qed.

Lemma upload_is_not_insert t row :
  Forall (fun ev => is_upload ev = true) t → ¬ In (Insert row) t.
Proof.
  intros H Hin. rewrite Forall_forall in H.
  apply list_elem_of_In in Hin. by apply H in Hin.
Qed.

Lemma mail_is_not_insert w body row : ¬ In (Insert row) (mail_step w body).1.
Proof. intros Hin. by apply mail_step_events in Hin as [? | ?]. Qed.

(** X4.  When the insert does not succeed, whether the database answers
    with an error or the call fails, the answer is 500 and no mail is
    dispatched; for an error answer the response is built from the error's
    [message], [details] and [hint]. *)
Theorem failed_insert_no_dispatch (w : world) (body : json)
    (row : gmap string json) :
  valid body →
  In (Insert row) (POST w (Resolves body)).1 →
  insert w row ≠ Resolves None →
  status (POST w (Resolves body)).2 = 500
  ∧ (∀ ev, In ev (POST w (Resolves body)).1 → is_fetch ev = false)
  ∧ (∀ error, insert w row = Resolves (Some error) →
     (POST w (Resolves body)).2 = db_error_response error).
Proof.
  intros Hv Hin Hfail. revert Hin. rewrite (POST_valid_run w body Hv). cbv zeta.
  set (id := resolve_waiver_id w body).
  destruct (signature_step_trace w id body) as [Hu1 _].
  destruct (signature_step w id body) as [t1 [[b1 u1]|e1]]; cbn [fst] in *.
  2:{ intros Hin. apply in_app_or in Hin as [Hin | [[=] | []]].
      by apply upload_is_not_insert in Hin. }
  destruct (id_front_step_trace w id b1 u1) as [Hu2 _].
  destruct (id_front_step w id b1 u1) as [t2 [[b2 u2]|e2]]; cbn [fst] in *.
  2:{ intros Hin. apply in_app_or in Hin as [Hin | Hin];
        [by apply upload_is_not_insert in Hin|].
      apply in_app_or in Hin as [Hin | [[=] | []]].
      by apply upload_is_not_insert in Hin. }
  pose proof (Promise_all_trace u2) as Ht3.
  destruct (Promise_all u2) as [t3 [l|e3]]; cbn [fst] in Ht3; subst t3; cbn [app].
  2:{ intros Hin. apply in_app_or in Hin as [Hin | Hin];
        [by apply upload_is_not_insert in Hin|].
      apply in_app_or in Hin as [Hin | [[=] | []]].
      by apply upload_is_not_insert in Hin. }
  assert (Hrow : ∀ tail, ¬ In (Insert row) tail →
            In (Insert row) (t1 ++ t2 ++ Insert (insertPayload w id b2) :: tail) →
            row = insertPayload w id b2).
  { intros tail Hno Hin. apply in_app_or in Hin as [Hin | Hin];
      [by apply upload_is_not_insert in Hin|].
    apply in_app_or in Hin as [Hin | [[= <-] | Hin]]; [|done..].
    by apply upload_is_not_insert in Hin. }
  assert (Hups : ∀ ev, In ev (t1 ++ t2) → is_fetch ev = false).
  { intros ev Hev. apply in_app_or in Hev. rewrite Forall_forall in Hu1, Hu2.
    destruct Hev as [Hev | Hev]; apply list_elem_of_In in Hev;
      [apply Hu1 in Hev | apply Hu2 in Hev]; by destruct ev. }
  destruct (insert w (insertPayload w id b2)) as [[error|]|reason] eqn:Ei; cbn [fst snd].
  - intros Hin. apply Hrow in Hin; [|by intros [[=] | []]]. subst row.
    split; [done|]. split.
    + intros ev Hev. rewrite app_assoc in Hev.
      apply in_app_or in Hev as [Hev | [<- | [<- | []]]]; auto.
    + intros error' He. rewrite Ei in He. by injection He as ->.
  - destruct (mail_step w b2) as [t4 [[]|e4]] eqn:E4; cbn [fst snd]; intros Hin;
      exfalso; apply Hfail.
    + apply Hrow in Hin; [by subst row|].
      pose proof (mail_is_not_insert w b2 row) as Hm. by rewrite E4 in Hm.
    + apply Hrow in Hin; [by subst row|]. intros Hbad.
      apply in_app_or in Hbad as [Hbad | [[=] | []]].
      pose proof (mail_is_not_insert w b2 row) as Hm. by rewrite E4 in Hm.
  - intros Hin. apply Hrow in Hin; [|by intros [[=] | []]]. subst row.
    split; [done|]. split.
    + intros ev Hev. rewrite app_assoc in Hev.
      apply in_app_or in Hev as [Hev | [<- | [<- | []]]]; auto.
    + intros error' He. by rewrite Ei in He.
Qed.

(** X5.  Once the row is inserted, a mail API that answers, with whatever
    status, does not change the outcome: if [client_name] is a string, the
    request to the API resolves, and the body of a non-ok answer can be
    read, the handler answers 200 with the resolved identifier. *)
Theorem answered_mail_keeps_200 (w : world) (body : json)
    (row : gmap string json) (s : string) (r : fetch_response) :
  valid body →
  get body "client_name" = Some (JStr s) →
  In (Insert row) (POST w (Resolves body)).1 →
  insert w row = Resolves None →
  fetch w = Resolves r →
  (r_ok r = true ∨ ∃ text, r_text r = Resolves text) →
  (POST w (Resolves body)).2 = ok_response (resolve_waiver_id w body).
Proof.
  intros Hv Hname Hin Hi Hf Hr.
  destruct (inserted_row_inv w body row Hv Hin) as (b1 & u1 & b2 & u2 & E1 & E2 & ->).
  destruct (working_record w body b1 u1 b2 u2 Hv E1 E2) as (Hsame & _ & _).
  destruct (POST_event_inv w body _ Hv Hin) as [H | [H | [H | H]]]; try done.
  { by apply signature_step_events in H as (? & ? & ? & ? & _). }
  { destruct H as (? & ? & _ & H).
    by apply id_front_step_events in H as (? & ? & ? & ? & _). }
  destruct H as (b1' & u1' & b2' & u2' & E1' & E2' & [l E3] & _).
  rewrite E1 in E1'. injection E1' as <- <-.
  rewrite E2 in E2'. injection E2' as <- <-.
  rewrite (POST_valid_run w body Hv). cbv zeta.
  set (id := resolve_waiver_id w body) in *.
  destruct (signature_step w id body) as [t1 [[b1' u1']|e1]]; [|done].
  cbn [snd] in E1. injection E1 as -> ->.
  destruct (id_front_step w id b1 u1) as [t2 [[b2' u2']|e2]]; [|done].
  cbn [snd] in E2. injection E2 as -> ->.
  rewrite E3, Hi.
  assert (Hm : ∃ t4, mail_step w b2 = (t4, Returns tt)).
  { unfold mail_step. destruct (_ && _); [|by eexists].
    rewrite (Hsame "client_name"), Hname
      by (unfold attachment_names; cbn; intuition congruence).
    unfold sendAftercareEmail. run.
    assert (Hor : or_else (Some (JStr s)) (JStr "") = JStr s).
    { unfold or_else. by destruct (truthy (Some (JStr s))) eqn:Ht; [|destruct s]. }
    rewrite Hor, Hf. cbn [app].
    destruct (r_ok r) eqn:Hok; cbn [negb]; [by eexists|].
    destruct Hr as [Hr | [text Hr]]; [done|]. rewrite Hr. by eexists. }
  destruct Hm as [t4 ->]. done.
Qed.

(** X6.  [sendAftercareEmail] returns normally exactly when the name is a
    string (or falsy), the request to the API resolves, and the answer is ok
    or its body can be read; in every other case it throws. *)
Theorem sendAftercareEmail_returns_iff (w : world) (to : json)
    (name : option json) :
  (∃ t, sendAftercareEmail w to name = (t, Returns tt))
  ↔ (∃ s, or_else name (JStr "") = JStr s)
    ∧ ∃ r, fetch w = Resolves r
           ∧ (r_ok r = true ∨ ∃ text, r_text r = Resolves text).
Proof.
  unfold sendAftercareEmail. run. split.
  - intros [t H]. destruct (or_else name (JStr "")) as [| | |s| |]; try done.
    split; [by eexists|].
    destruct (fetch w) as [r|reason]; [|done]. exists r. split; [done|].
    cbn [app] in H. destruct (r_ok r); [by left|]. cbn [negb] in H.
    destruct (r_text r) as [text|]; [|done]. right. by eexists.
  - intros [[s ->] (r & -> & Hr)]. cbn [app].
    destruct (r_ok r); cbn [negb]; [by eexists|].
    destruct Hr as [Hr | [text ->]]; [done|]. by eexists.
Qed.

(** ** The aftercare mail *)

Lemma first_token_no_space s :
  forallb (fun c => negb (Js.is_space c)) (list_ascii_of_string (Js.first_token s))
  = true.
Proof.
  induction s as [|c s IH]; [done|]. cbn [Js.first_token].
  destruct (Js.is_space c) eqn:E; [done|].
  cbn [list_ascii_of_string forallb]. by rewrite E, IH.
Qed.

Lemma sendAftercareEmail_request w to name m :
  In (Fetch m) (sendAftercareEmail w to name).1 →
  ∃ s, or_else name (JStr "") = JStr s
       ∧ first m = (if String.eqb (Js.first_token (Js.trim s)) "" then "there"
                    else Js.first_token (Js.trim s))
       ∧ sender_email m
         = default (env_or (FROM_EMAIL w)
                      "Broken Art Tattoo <no-reply@brokenarttattoo.com>")
             (match_angle (env_or (FROM_EMAIL w)
                             "Broken Art Tattoo <no-reply@brokenarttattoo.com>"))
       ∧ to_email m = to
       ∧ replyTo m = env_truthy (REPLY_TO w).
Proof.
  unfold sendAftercareEmail. run.
  destruct (or_else name (JStr "")) as [| | |s| |]; try done.
  intros Hin. exists s. split; [done|].
  assert (Hm : m = {| api_key := BREVO_API_KEY w;
                      sender_email :=
                        default (env_or (FROM_EMAIL w)
                                   "Broken Art Tattoo <no-reply@brokenarttattoo.com>")
                          (match_angle
                             (env_or (FROM_EMAIL w)
                                "Broken Art Tattoo <no-reply@brokenarttattoo.com>"));
                      to_email := to;
                      first := if String.eqb (Js.first_token (Js.trim s)) "" then "there"
                               else Js.first_token (Js.trim s);
                      replyTo := env_truthy (REPLY_TO w) |}).
  { destruct (fetch w) as [r|reason]; cbn [app] in Hin.
    - destruct (r_ok r); cbn [negb app] in Hin.
      + by destruct Hin as [[= <-] | [[=] | []]].
      + destruct (r_text r); cbn [app] in Hin.
        * by destruct Hin as [[= <-] | [[=] | []]].
        * by destruct Hin as [[= <-] | []].
    - by destruct Hin as [[= <-] | []]. }
  by subst m.
Qed.

(** X7.  The greeting of the mail is one word: the [first] put into the
    template is never empty and contains no white space, and it is [there]
    when the name is missing or blank. *)
Theorem greeting_is_one_word (w : world) (to : json) (name : option json)
    (m : mail) :
  In (Fetch m) (sendAftercareEmail w to name).1 →
  first m ≠ ""
  ∧ forallb (fun c => negb (Js.is_space c)) (list_ascii_of_string (first m)) = true
  ∧ (truthy name = false → first m = "there")
  ∧ (∀ s, name = Some (JStr s) → Js.trim s = "" → first m = "there").
Proof.
  intros Hin.
  destruct (sendAftercareEmail_request w to name m Hin) as (s & Hs & Hf & _).
  rewrite Hf. clear Hf. split; [|split; [|split]].
  - destruct (String.eqb _ "") eqn:E; [done|]. by apply String.eqb_neq in E.
  - destruct (String.eqb _ ""); [done|]. apply first_token_no_space.
  - intros Hn. assert (s = "") as ->; [|done].
    unfold or_else in Hs. destruct name as [v|]; [|congruence].
    rewrite Hn in Hs. congruence.
  - intros s' -> Ht. unfold or_else in Hs.
    destruct (truthy (Some (JStr s'))) eqn:E.
    + injection Hs as <-. by rewrite Ht.
    + injection Hs as <-. done.
Qed.

Lemma until_gt_app a rest :
  Js.includes ">" a = false → until_gt (a +:+ String ">" rest) = Some a.
Proof.
  induction a as [|c a IH]; [done|]. rewrite append_cons. cbn [Js.includes until_gt].
  destruct (Ascii.eqb c ">"); [done|]. cbn [orb]. intros H. by rewrite (IH H).
Qed.

Lemma match_angle_app display addr rest :
  Js.includes "<" display = false → addr ≠ "" → Js.includes ">" addr = false →
  match_angle (display +:+ String "<" (addr +:+ String ">" rest)) = Some addr.
Proof.
  intros Hd Ha Hg. induction display as [|c display IH].
  - change (match_angle (String "<" (addr +:+ String ">" rest)) = Some addr).
    cbn [match_angle]. rewrite Ascii.eqb_refl, (until_gt_app addr rest Hg).
    by destruct addr.
  - rewrite append_cons. cbn [Js.includes match_angle] in *.
    destruct (Ascii.eqb c "<"); [done|]. by apply IH.
Qed.

Lemma match_angle_none s : Js.includes "<" s = false → match_angle s = None.
Proof.
  induction s as [|c s IH]; [done|]. cbn [Js.includes match_angle].
  destruct (Ascii.eqb c "<"); [done|]. apply IH.
Qed.

(** X8.  The sender address of the mail: the text between the first
    [<] and the next [>] of [FROM_EMAIL] when that text is not empty, the
    whole of [FROM_EMAIL] when it has no [<], and
    [no-reply@brokenarttattoo.com] when the variable is unset or empty. *)
Theorem sender_address (w : world) (to : json) (name : option json) (m : mail) :
  In (Fetch m) (sendAftercareEmail w to name).1 →
  (FROM_EMAIL w = None ∨ FROM_EMAIL w = Some "" →
   sender_email m = "no-reply@brokenarttattoo.com")
  ∧ (∀ display addr rest,
       FROM_EMAIL w = Some (display +:+ "<" +:+ addr +:+ ">" +:+ rest) →
       Js.includes "<" display = false → addr ≠ "" →
       Js.includes ">" addr = false →
       sender_email m = addr)
  ∧ (∀ from, FROM_EMAIL w = Some from → from ≠ "" →
       Js.includes "<" from = false → sender_email m = from).
Proof.
  intros Hin.
  destruct (sendAftercareEmail_request w to name m Hin) as (s & _ & _ & -> & _).
  split; [|split].
  - by intros [-> | ->].
  - intros display addr rest -> Hd Ha Hg.
    assert (Hne : String.eqb (display +:+ "<" +:+ addr +:+ ">" +:+ rest) "" = false).
    { by destruct display. }
    unfold env_or. rewrite Hne.
    change (display +:+ "<" +:+ addr +:+ ">" +:+ rest)
      with (display +:+ String "<" (addr +:+ String ">" rest)).
    by rewrite match_angle_app.
  - intros from -> Hne Hno. unfold env_or.
    apply String.eqb_neq in Hne. rewrite Hne.
    by rewrite match_angle_none.
Qed.

(** ** Decoding attachments *)

Lemma startsWith_nonempty s p :
  p ≠ "" → Js.startsWith s p = true → s ≠ "".
Proof. unfold Js.startsWith. intros Hp H ->. by destruct p. Qed.

Lemma split_head c s :
  Js.includes c (nth 0 (Js.split c s) "") = false
  ∧ (s = nth 0 (Js.split c s) ""
     ∨ ∃ rest, s = nth 0 (Js.split c s) "" +:+ String c rest).
Proof.
  induction s as [|d s [IH1 IH2]]; [by auto|]. cbn [Js.split].
  destruct (Ascii.eqb_spec d c) as [-> | Hne].
  - split; [done|]. right. by exists s.
  - destruct (Js.split c s) as [|piece pieces] eqn:E.
    + cbn [nth Js.includes]. apply Ascii.eqb_neq in Hne. rewrite Hne.
      split; [done|]. cbn [nth] in IH2.
      destruct IH2 as [-> | [rest ->]]; [by left|]. right. by exists rest.
    + cbn [nth Js.includes] in *. apply Ascii.eqb_neq in Hne. rewrite Hne.
      split; [done|].
      destruct IH2 as [IH2 | [rest IH2]]; [left | right; exists rest];
        by rewrite IH2 at 1.
Qed.

Lemma split_pieces_clean c s piece :
  In piece (Js.split c s) → Js.includes c piece = false.
Proof.
  revert piece. induction s as [|d s IH]; intros piece.
  - by intros [<- | []].
  - cbn [Js.split]. destruct (Ascii.eqb d c) eqn:E.
    + intros [<- | Hin]; [done|]. by apply IH.
    + destruct (Js.split c s) as [|p ps].
      * intros [<- | []]. cbn. by rewrite E.
      * intros [<- | Hin].
        -- cbn. rewrite E. apply IH. by left.
        -- apply IH. by right.
Qed.

(** The decoder on a string the client's encoder could have written. *)
Lemma decode_tagged (buf : list byte) (type : string) :
  Js.includes "," type = false →
  dataUrlToBytes
    (Some (JStr ("data:" +:+ type +:+ ";base64," +:+ Base64.toString_base64 buf)))
  = Returns (Some {| bytes := buf; mime := nth 0 (Js.split ";" type) "" |}).
Proof.
  intros Hcomma.
  set (b64 := Base64.toString_base64 buf).
  set (kind := nth 0 (Js.split ";" type) "").
  destruct (split_head ";" type) as [Hclean Hform]. fold kind in Hclean, Hform.
  assert (Htail : ∃ rest, type +:+ ";base64" = kind +:+ String ";" rest).
  { destruct Hform as [Heq | [rest Heq]].
    - exists "base64". by rewrite <- Heq.
    - exists (rest +:+ ";base64"). rewrite Heq at 1.
      by rewrite append_assoc. }
  destruct Htail as [rest Htail].
  set (meta := "data:" +:+ type +:+ ";base64").
  assert (Hurl : "data:" +:+ type +:+ ";base64," +:+ b64 = meta +:+ String "," b64).
  { unfold meta. by rewrite !append_assoc. }
  assert (Hsplit : Js.split "," (meta +:+ String "," b64) = [meta; b64]).
  { rewrite split_app_sep.
    - by rewrite (split_no_sep "," b64 (toString_base64_no_comma buf)).
    - unfold meta. rewrite !includes_append, Hcomma. reflexivity. }
  assert (Hmeta : meta = "data:" +:+ kind +:+ String ";" rest).
  { unfold meta. by rewrite Htail. }
  assert (Hidx : Js.indexOf ";" meta
                 = Z.of_nat (String.length "data:" + String.length kind)).
  { rewrite Hmeta, <- append_assoc, indexOf_app_sep, length_append; [done|].
    rewrite includes_append, Hclean. reflexivity. }
  assert (Ht : truthy (Some (JStr ("data:" +:+ type +:+ ";base64," +:+ b64))) = true)
    by reflexivity.
  assert (Hp : Js.startsWith ("data:" +:+ type +:+ ";base64," +:+ b64) "data:" = true)
    by apply startsWith_append.
  unfold dataUrlToBytes. rewrite Ht, Hp, Hurl, Hsplit.
  cbn [negb nth lookup list_lookup default from_option id].
  rewrite Hidx, Hmeta.
  change 5 with (Z.of_nat (String.length "data:")).
  rewrite slice_middle.
  subst b64. rewrite atob_toString_base64, list_byte_of_string_of_list_byte.
  reflexivity.
Qed.

(** X9.  When the MIME type of a file has no comma, the octets of the
    file come back exactly from [dataUrlToBytes] after [fileToDataURL], and
    the MIME type comes back up to its first semicolon, [type.split(";")[0]]:
    parameters of the type are lost, the octets never are. *)
Theorem octets_survive_mime_is_cut (buf : list byte) (type : string) :
  Js.includes "," type = false →
  dataUrlToBytes
    (JStr <$> fileToDataURL (Some {| file_bytes := buf; file_type := type |}))
  = Returns (Some {| bytes := buf; mime := nth 0 (Js.split ";" type) "" |}).
Proof. intros H. by apply decode_tagged. Qed.

(** X10.  Two ways a field makes the decoder throw: a truthy value that
    is not a string (a number, [true], an array, an object) has no
    [startsWith]; a string that starts with [data:] and has no comma leaves
    [atob] with the text [undefined]. *)
Theorem malformed_tag_throws (v : json) :
  (truthy (Some v) = true → (∀ s, v ≠ JStr s) →
   ∃ what, dataUrlToBytes (Some v) = Throws (TypeError what))
  ∧ (∀ s, v = JStr s → Js.startsWith s "data:" = true →
     Js.includes "," s = false →
     dataUrlToBytes (Some v) = Throws InvalidCharacterError).
Proof.
  split.
  - intros Ht Hns. unfold dataUrlToBytes. rewrite Ht. cbn [negb].
    destruct v; try by eexists. by destruct (Hns s).
  - intros s -> Hp Hc. unfold dataUrlToBytes.
    assert (Ht : truthy (Some (JStr s)) = true).
    { cbn. apply negb_true_iff, String.eqb_neq.
      by apply (startsWith_nonempty s "data:"). }
    rewrite Ht, Hp, (split_no_sep "," s Hc). reflexivity.
Qed.

(** X11.  An exception of the signature decoder ends the run at once:
    status 500, and nothing uploaded or inserted. *)
Theorem signature_exception_is_500 (w : world) (body : json) (e : exn) :
  valid body →
  dataUrlToBytes (get body "signature_png") = Throws e →
  POST w (Resolves body) = ([ConsoleError "Handler exception"], server_error).
Proof.
  intros Hv He. rewrite (POST_valid_run w body Hv). cbv zeta.
  by rewrite signature_step_cases, He.
Qed.

(** X12.  An exception of the ID photo decoder comes after the signature
    upload has been issued: the run ends with status 500 and without an
    insert, and the signature object stays in storage with no row naming
    it. *)
Theorem photo_exception_orphans_signature (w : world) (body : json)
    (d : decoded) (s : string) (e : exn) :
  valid body →
  dataUrlToBytes (get body "signature_png") = Returns (Some d) →
  toString (resolve_waiver_id w body) = Some s →
  dataUrlToBytes (get body "id_photo_front") = Throws e →
  POST w (Resolves body)
  = ([ Upload ("waivers/" +:+ s +:+ "/" +:+ "signature.png") (bytes d) "image/png";
       ConsoleError "Handler exception" ],
     server_error).
Proof.
  intros Hv Hd Hs He. rewrite (POST_valid_run w body Hv). cbv zeta.
  rewrite signature_step_cases, Hd, Hs. cbv beta iota zeta.
  rewrite id_front_step_cases.
  rewrite get_delete_field_ne, get_set_field_ne, He by done. done.
Qed.

(** X13.  The object name of an ID photo is [id_front.<ext>] under the
    identifier's namespace, where [ext] is never empty and has no slash; it
    is [png] when the decoded MIME type has no slash at all. *)
Theorem id_front_object_name (w : world) (id body : json)
    (uploads : list (promise (option string)))
    (path : string) (content : list byte) (type : string) :
  In (Upload path content type) (id_front_step w id body uploads).1 →
  ∃ s ext,
    toString id = Some s
    ∧ path = "waivers/" +:+ s +:+ "/" +:+ ("id_front." +:+ ext)
    ∧ ext ≠ ""
    ∧ Js.includes "/" ext = false
    ∧ (Js.includes "/" type = false → ext = "png").
Proof.
  rewrite id_front_step_cases.
  destruct (dataUrlToBytes _) as [[d|]|e']; [|done..].
  destruct (toString id) as [s|]; [|done].
  intros [[= <- <- <-] | []]. exists s, (ext_of (mime d)).
  split; [done|]. split; [done|]. unfold ext_of.
  destruct (Js.split "/" (mime d) !! 1%nat) as [e0|] eqn:E.
  - assert (Hclean : Js.includes "/" e0 = false).
    { apply (split_pieces_clean "/" (mime d)).
      apply list_elem_of_In. by apply list_elem_of_lookup_2 in E. }
    destruct (String.eqb e0 "") eqn:E0.
    + repeat split; try done.
    + apply String.eqb_neq in E0. repeat split; try done.
      intros Hno. by rewrite (split_no_sep "/" (mime d) Hno) in E.
  - repeat split; done.
Qed.

(** ** The ink detector and the pad *)

Lemma loop_values_spec stop v :
  In v (loop_values stop 4) ↔ 0 ≤ v < stop ∧ v mod 4 = 0.
Proof.
  unfold loop_values. rewrite in_map_iff. split.
  - intros (k & <- & Hk). apply in_seq in Hk.
    assert (Z.of_nat k < (stop + 4 - 1) / 4) by lia.
    split; Z.to_euclidean_division_equations; lia.
  - intros [Hv Hm]. exists (Z.to_nat (v / 4)). split.
    + rewrite Z2Nat.id by (Z.to_euclidean_division_equations; lia).
      Z.to_euclidean_division_equations; lia.
    + apply in_seq. split; [lia|]. cbn [Nat.add].
      apply Z2Nat.inj_lt; Z.to_euclidean_division_equations; lia.
Qed.

Lemma hasAnyInk_sampled (c : canvas) :
  hasAnyInk c = true
  ↔ ∃ x y, 0 ≤ x < width c ∧ 0 ≤ y < height c
           ∧ x mod 4 = 0 ∧ y mod 4 = 0
           ∧ 0 < alpha (pixel c x y).
Proof.
  unfold hasAnyInk. split.
  - destruct ((width c =? 0) || (height c =? 0)); [done|].
    intros (y & Hy & Hx)%existsb_exists. apply existsb_exists in Hx as (x & Hx & Ha).
    apply loop_values_spec in Hy as [Hy Hym].
    apply loop_values_spec in Hx as [Hx Hxm].
    rewrite getImageData_alpha in Ha by lia. apply Z.ltb_lt in Ha.
    exists x, y. auto.
  - intros (x & y & Hx & Hy & Hxm & Hym & Ha).
    replace (width c =? 0) with false by (symmetry; apply Z.eqb_neq; lia).
    replace (height c =? 0) with false by (symmetry; apply Z.eqb_neq; lia).
    cbn [orb]. apply existsb_exists. exists y.
    split; [by apply loop_values_spec|].
    apply existsb_exists. exists x. split; [by apply loop_values_spec|].
    rewrite getImageData_alpha by lia. by apply Z.ltb_lt.
Qed.

(** X14.  [hasAnyInk] answers [true] exactly when some pixel of the
    bitmap whose column and row are both multiples of 4 has a non-zero
    alpha; pixels off that grid are never looked at, and a bitmap without
    width or height has no ink. *)
Theorem hasAnyInk_iff_sampled_pixel (c : canvas) :
  hasAnyInk c = true
  ↔ ∃ x y, 0 ≤ x < width c ∧ 0 ≤ y < height c
           ∧ x mod 4 = 0 ∧ y mod 4 = 0
           ∧ 0 < alpha (pixel c x y).
Proof. apply hasAnyInk_sampled. Qed.

(** X15.  On a transparent surface, which is what [clearRect] alone
    leaves, the detector answers [false]; and after one stroke on it, it
    answers [true] exactly when the stroke covers a pixel of the sampling
    grid. *)
Theorem ink_on_transparent_surface (c : canvas)
    (coverage : Q * Q → Q * Q → Z → Z → Z) (p q : Q * Q) :
  hasAnyInk (clearRect_all c) = false
  ∧ (hasAnyInk (stroke coverage (clearRect_all c) p q) = true
     ↔ ∃ x y, 0 ≤ x < width c ∧ 0 ≤ y < height c
              ∧ x mod 4 = 0 ∧ y mod 4 = 0
              ∧ 0 < coverage p q x y).
Proof.
  split.
  - apply not_true_iff_false. rewrite hasAnyInk_sampled.
    intros (x & y & _ & _ & _ & _ & Ha). cbn in Ha. lia.
  - rewrite hasAnyInk_sampled. cbn [stroke clearRect_all width height pixel].
    split; intros (x & y & Hx & Hy & Hxm & Hym & Ha); exists x, y;
      repeat split; try tauto.
    + destruct (coverage p q x y =? 0) eqn:E; cbn in Ha; [lia|].
      unfold over_alpha in Ha. cbn in Ha. revert Ha.
      rewrite Z.add_0_r. done.
    + destruct (coverage p q x y =? 0) eqn:E; [apply Z.eqb_eq in E; lia|].
      cbn. unfold over_alpha. cbn. by rewrite Z.add_0_r.
Qed.

(** X16.  Moves received while the pointer is up draw nothing: from a
    state with the pointer up, a sequence of events without a pointer-down
    leaves the surface as it was. *)
Theorem moves_while_up_draw_nothing
    (coverage : Q * Q → Q * Q → Z → Z → Z) (events : list pointer) (s : pad) :
  drawing s = false →
  (∀ e, In e events → ∀ x y, e ≠ PointerDown x y) →
  surface (fold_left (handle_pointer coverage) events s) = surface s
  ∧ drawing (fold_left (handle_pointer coverage) events s) = false.
Proof.
  revert s. induction events as [|e events IH]; intros s Hup Hno; [done|].
  cbn [fold_left].
  assert (Hstep : surface (handle_pointer coverage s e) = surface s
                  ∧ drawing (handle_pointer coverage s e) = false).
  { destruct e as [x y|x y|]; cbn [handle_pointer].
    - by destruct (Hno (PointerDown x y) (or_introl eq_refl) x y).
    - by rewrite Hup.
    - done. }
  destruct Hstep as [Hs Hd].
  destruct (IH (handle_pointer coverage s e) Hd) as [IH1 IH2].
  { intros e' Hin. apply Hno. by right. }
  by rewrite IH1, Hs.
Qed.

(** X17.  The bitmap [resize] allocates is never smaller than the CSS box:
    at least [clientWidth] by 160 pixels; exactly that when the device pixel
    ratio is 1 or less (or missing), and exactly [k] times that for an
    integer ratio [k]. *)
Theorem resize_dimensions (c : canvas) :
  0 ≤ parent_clientWidth c →
  (parent_clientWidth c ≤ width (resize c) ∧ 160 ≤ height (resize c))
  ∧ ((devicePixelRatio c <= 1)%Q →
     width (resize c) = parent_clientWidth c ∧ height (resize c) = 160)
  ∧ (∀ k, 1 ≤ k → devicePixelRatio c = inject_Z k →
     width (resize c) = parent_clientWidth c * k ∧ height (resize c) = 160 * k).
Proof.
  intros Hw. rewrite width_resize, height_resize. split; [|split].
  - split; apply scaled_ge; auto using dpr_ge_1; lia.
  - intros Hr.
    assert (Hd : (dpr_of c == 1)%Q).
    { unfold dpr_of. destruct (Qeq_bool _ 0); [done|]. by apply Q.max_l. }
    rewrite Hd, !Qmult_1_r, !Qfloor_Z. done.
  - intros k Hk Hr.
    assert (Hd : (dpr_of c == inject_Z k)%Q).
    { unfold dpr_of. rewrite Hr.
      destruct (Qeq_bool (inject_Z k) 0) eqn:E.
      - apply Qeq_bool_iff in E. exfalso.
        assert (inject_Z 0 < inject_Z k)%Q by (rewrite <- Zlt_Qlt; lia).
        rewrite E in H. by apply Qlt_irrefl in H.
      - apply Q.max_r. change (inject_Z 1 <= inject_Z k)%Q.
        rewrite <- Zle_Qle. lia. }
    rewrite Hd, <- !inject_Z_mult, !Qfloor_Z. done.
Qed.

(** ** From the form to the handler *)

Ltac payload_lookup :=
  unfold payload; cbn [app]; rewrite ?list_to_map_cons;
  repeat (rewrite lookup_insert_ne by done); rewrite ?lookup_insert_eq.

Lemma payload_waiver_id f random png ua ts :
  payload f random png ua ts !! "waiver_id"
  = Some (JStr ("BAT-LOCAL-" +:+ Js.of_int random)).
Proof. by payload_lookup. Qed.

Lemma payload_client_name f random png ua ts :
  payload f random png ua ts !! "client_name" = Some (JStr (clientName f)).
Proof. by payload_lookup. Qed.

Lemma payload_email f random png ua ts :
  payload f random png ua ts !! "email" = Some (JStr (email f)).
Proof. by payload_lookup. Qed.

Lemma payload_signature f random png ua ts :
  payload f random png ua ts !! "signature_png" = Some (JStr (toDataURL png)).
Proof. by payload_lookup. Qed.

Lemma payload_id_photo f random png ua ts :
  payload f random png ua ts !! "id_photo_front"
  = Some (match fileToDataURL (idFile f) with Some u => JStr u | None => JNull end).
Proof. by payload_lookup. Qed.

Lemma payload_valid f random png ua ts :
  clientName f ≠ "" → email f ≠ "" → valid (JObj (payload f random png ua ts)).
Proof.
  intros Hn He. unfold valid. cbn [get].
  rewrite payload_client_name, payload_email. cbn [truthy].
  apply String.eqb_neq in Hn, He. by rewrite Hn, He.
Qed.

(** X18.  What the form sends, the handler does not refuse for a missing
    field: a body that passed the local checks has a truthy [client_name]
    and [email]; it also carries a truthy [waiver_id], so the identifier the
    handler resolves is the client's [BAT-LOCAL-<n>] and never one of its
    own making.  The local checks that let it through are all four: name,
    email, every consent, ink. *)
Theorem sent_body_passes_the_check (f : form) (c : canvas) (random : Z)
    (png : list byte) (ua ts : string) (body : json) (w : world) :
  handleSubmit f c random png ua ts = Sent body →
  valid body
  ∧ resolve_waiver_id w body = JStr ("BAT-LOCAL-" +:+ Js.of_int random)
  ∧ status (POST w (Resolves body)).2 ≠ 400
  ∧ clientName f ≠ "" ∧ email f ≠ ""
  ∧ Forall (fun b => b = true) (consents f)
  ∧ hasAnyInk c = true.
Proof.
  unfold handleSubmit.
  destruct (String.eqb (clientName f) "") eqn:En; [done|].
  destruct (String.eqb (email f) "") eqn:Ee; [done|]. cbn [orb].
  destruct (forallb (fun b => b) (consents f)) eqn:Ec; [|done]. cbn [negb].
  destruct (hasAnyInk c) eqn:Ei; [|done]. cbn [negb].
  intros [= <-]. apply String.eqb_neq in En, Ee.
  pose proof (payload_valid f random png ua ts En Ee) as Hv.
  split; [done|]. split; [|split].
  - unfold resolve_waiver_id. cbn [get]. rewrite payload_waiver_id. done.
  - intros H400. apply POST_400_iff in H400.
    destruct Hv as [H1 H2]. destruct H400; congruence.
  - repeat split; try done. apply Forall_forall. intros b Hb.
    rewrite forallb_forall in Ec. apply Ec. by apply list_elem_of_In.
Qed.

Lemma POST_trace_prefix w body t1 b1 u1 t2 o2 :
  valid body →
  signature_step w (resolve_waiver_id w body) body = (t1, Returns (b1, u1)) →
  id_front_step w (resolve_waiver_id w body) b1 u1 = (t2, o2) →
  ∃ rest, (POST w (Resolves body)).1 = t1 ++ t2 ++ rest.
Proof.
  intros Hv E1 E2. rewrite (POST_valid_run w body Hv). cbv zeta. rewrite E1, E2.
  destruct o2 as [[b2 u2]|e2]; [|by eexists].
  destruct (Promise_all u2) as [t3 [l|e3]]; [|by eexists].
  destruct (insert w _) as [[error|]|reason]; [by eexists| |by eexists].
  destruct (mail_step w b2) as [t4 [[]|e4]]; by eexists.
Qed.

(** X19.  What the form encodes is what storage receives.  For the body
    the form builds, with an ID file whose MIME type has no comma, the run
    starts with the upload of exactly the PNG octets of the canvas to
    [waivers/BAT-LOCAL-<n>/signature.png], followed by the upload of exactly
    the octets of the file to [waivers/BAT-LOCAL-<n>/id_front.<ext>], with
    the file's MIME type (up to its first semicolon) as content type. *)
Theorem form_attachments_reach_storage (f : form) (random : Z)
    (png : list byte) (ua ts : string) (photo : file) (w : world) :
  clientName f ≠ "" → email f ≠ "" →
  idFile f = Some photo →
  Js.includes "," (file_type photo) = false →
  let ns := "waivers/" +:+ ("BAT-LOCAL-" +:+ Js.of_int random) +:+ "/" in
  let kind := nth 0 (Js.split ";" (file_type photo)) "" in
  ∃ rest,
    (POST w (Resolves (JObj (payload f random png ua ts)))).1
    = Upload (ns +:+ "signature.png") png "image/png"
        :: Upload (ns +:+ ("id_front." +:+ ext_of kind)) (file_bytes photo) kind
        :: rest.
Proof.
  intros Hn He Hfile Hcomma ns kind.
  set (body := JObj (payload f random png ua ts)).
  pose proof (payload_valid f random png ua ts Hn He) as Hv. fold body in Hv.
  assert (Hid : resolve_waiver_id w body = JStr ("BAT-LOCAL-" +:+ Js.of_int random)).
  { unfold resolve_waiver_id, body. cbn [get]. by rewrite payload_waiver_id. }
  assert (Hsig : dataUrlToBytes (get body "signature_png")
                 = Returns (Some {| bytes := png; mime := "image/png" |})).
  { unfold body. cbn [get]. rewrite payload_signature.
    apply (decode_tagged png "image/png"). reflexivity. }
  assert (E1 : signature_step w (resolve_waiver_id w body) body
               = ([Upload (ns +:+ "signature.png") png "image/png"],
                  Returns (delete_field
                             (set_field body "signature_path"
                                (JStr (ns +:+ "signature.png")))
                             "signature_png",
                           [upload w (ns +:+ "signature.png")]))).
  { rewrite signature_step_cases, Hsig, Hid. cbn [toString bytes]. cbv zeta.
    unfold ns. by rewrite !append_assoc. }
  assert (Hphoto : dataUrlToBytes
                     (get (delete_field
                             (set_field body "signature_path"
                                (JStr (ns +:+ "signature.png")))
                             "signature_png") "id_photo_front")
                   = Returns (Some {| bytes := file_bytes photo; mime := kind |})).
  { rewrite get_delete_field_ne, get_set_field_ne by done.
    unfold body. cbn [get]. rewrite payload_id_photo, Hfile.
    cbn [fileToDataURL]. by apply decode_tagged. }
  destruct (POST_trace_prefix w body _ _ _
              [Upload (ns +:+ ("id_front." +:+ ext_of kind)) (file_bytes photo) kind]
              (Returns
                 (delete_field
                    (set_field
                       (delete_field
                          (set_field body "signature_path"
                             (JStr (ns +:+ "signature.png")))
                          "signature_png")
                       "id_photo_front_path"
                       (JStr (ns +:+ ("id_front." +:+ ext_of kind))))
                    "id_photo_front",
                  [upload w (ns +:+ "signature.png")]
                  ++ [upload w (ns +:+ ("id_front." +:+ ext_of kind))]))
              Hv E1) as [rest Hrest].
  { rewrite id_front_step_cases, Hphoto, Hid. cbn [toString bytes mime]. cbv zeta.
    unfold ns. by rewrite !append_assoc. }
  exists rest. exact Hrest.
Qed.

Lemma resolve_waiver_id_is_truthy w body :
  truthy (Some (resolve_waiver_id w body)) = true.
Proof.
  unfold resolve_waiver_id, or_else.
  destruct (get body "waiver_id") as [v|] eqn:E; [|done].
  by destruct (truthy (Some v)) eqn:Ht.
Qed.

(** X20.  What the page tells the user follows the handler's status: for
    every answer other than 200 the page shows the generic failure text, and
    for 200 it shows the success text with the identifier the handler
    resolved. *)
Theorem page_message_follows_status (w : world) (body : json)
    (local_id : string) :
  let r := (POST w (Resolves body)).2 in
  let shown := after_fetch local_id (Resolves (status r, Some (JObj (body_json r)))) in
  (status r ≠ 200 →
   shown = "Something went wrong saving your waiver. Please try again.")
  ∧ (status r = 200 → ∀ s, toString (resolve_waiver_id w body) = Some s →
     shown = "Waiver submitted! Your ID: " +:+ s).
Proof.
  cbv zeta. split.
  - intros Hs.
    destruct (POST_answers w (Resolves body)) as [H | [H | [[error H] | [id H]]]];
      rewrite H in Hs |- *; try done.
  - intros Hs s Hts.
    destruct (valid_dec body) as [Hv | Hn];
      [|by rewrite POST_invalid in Hs].
    destruct (POST_success w body Hv Hs)
      as (t1 & b1 & u1 & t2 & b2 & u2 & t4 & _ & _ & _ & _ & ->).
    cbn [snd]. unfold after_fetch, ok_response, NextResponse_json.
    cbn [status body_json default from_option id get].
    set (rid := resolve_waiver_id w body) in *.
    assert (Hok : (list_to_map [("ok", JBool true); ("waiver_id", rid)]
                   : gmap string json) !! "ok" = Some (JBool true)) by reflexivity.
    assert (Hwid : (list_to_map [("ok", JBool true); ("waiver_id", rid)]
                    : gmap string json) !! "waiver_id" = Some rid) by reflexivity.
    rewrite Hok, Hwid. cbn [truthy negb orb andb Z.leb Z.compare Pos.compare
                             Pos.compare_cont].
    pose proof (resolve_waiver_id_is_truthy w body) as Htr. fold rid in Htr.
    unfold or_else. rewrite Htr. by rewrite Hts.
Qed.

(** ** Opting in, and the row of a form submission *)

Lemma no_flag_no_fetch (w : world) (body : json) :
  truthy (get body "send_aftercare") = false →
  ∀ ev, In ev (POST w (Resolves body)).1 → is_fetch ev = false.
Proof.
  intros Hflag ev Hin.
  destruct (valid_dec body) as [Hv | Hn]; [|by rewrite POST_invalid in Hin].
  destruct (POST_event_inv w body ev Hv Hin) as [H | [H | [H | H]]].
  - by apply signature_step_events in H as (? & ? & ? & -> & _).
  - destruct H as (b1 & u1 & _ & H).
    by apply id_front_step_events in H as (? & ? & ? & -> & _).
  - destruct H as (b1 & u1 & b2 & u2 & E1 & E2 & _ & [-> | [_ H]]); [done|].
    destruct (working_record w body b1 u1 b2 u2 Hv E1 E2) as (Hsame & _ & _).
    revert H. unfold mail_step. rewrite (Hsame "send_aftercare"), Hflag; [done|].
    unfold attachment_names. cbn. intuition congruence.
  - by destruct ev.
Qed.

(** X21.  No mail without the flag: when the body's [send_aftercare] is
    not truthy, no run of the handler sends a request to the mail API,
    whatever else the body holds and whatever the attachment blocks did to
    the working record. *)
Theorem no_flag_no_mail (w : world) (body : json) :
  truthy (get body "send_aftercare") = false →
  ∀ ev, In ev (POST w (Resolves body)).1 → is_fetch ev = false.
Proof. apply no_flag_no_fetch. Qed.

Lemma lookup_after_ack (k k' : string) f i (l : list (string * json)) :
  k ≠ k' →
  (list_to_map (ack k' f i ++ l) : gmap string json) !! k
  = (list_to_map l : gmap string json) !! k.
Proof.
  intros Hne. unfold ack. destruct (consents f !! i); [|done].
  cbn [app]. by rewrite list_to_map_cons, lookup_insert_ne.
Qed.

Ltac payload_lookup_far :=
  unfold payload; cbn [app]; rewrite ?list_to_map_cons;
  repeat (rewrite lookup_insert_ne by done);
  repeat (rewrite lookup_after_ack by done);
  rewrite ?list_to_map_cons;
  repeat (rewrite lookup_insert_ne by done);
  rewrite ?lookup_insert_eq, ?lookup_empty.

Lemma payload_send_aftercare f random png ua ts :
  payload f random png ua ts !! "send_aftercare" = Some (JBool (sendAftercare f)).
Proof. by payload_lookup_far. Qed.

Lemma payload_no_paths f random png ua ts :
  payload f random png ua ts !! "signature_path" = None
  ∧ payload f random png ua ts !! "id_photo_front_path" = None.
Proof. split; by payload_lookup_far. Qed.

Lemma payload_phone f random png ua ts :
  payload f random png ua ts !! "phone" = Some (JStr (phone f)).
Proof. by payload_lookup. Qed.

Lemma payload_dob f random png ua ts :
  payload f random png ua ts !! "dob" = Some (JStr (dob f)).
Proof. by payload_lookup. Qed.

Lemma payload_procedure_type f random png ua ts :
  payload f random png ua ts !! "procedure_type"
  = Some (JStr (procedureType_text (procedureType f))).
Proof. by payload_lookup. Qed.

Lemma payload_procedure_site f random png ua ts :
  payload f random png ua ts !! "procedure_site" = Some (JStr (procedureSite f)).
Proof. by payload_lookup. Qed.

(** X22.  A client who unticks the aftercare box gets no mail: for the
    body the form builds with [sendAftercare] off, no run of the handler
    sends a request to the mail API. *)
Theorem unticked_box_gets_no_mail (f : form) (random : Z) (png : list byte)
    (ua ts : string) (w : world) :
  sendAftercare f = false →
  ∀ ev, In ev (POST w (Resolves (JObj (payload f random png ua ts)))).1 →
        is_fetch ev = false.
Proof.
  intros Hoff. apply no_flag_no_fetch. cbn [get].
  by rewrite payload_send_aftercare, Hoff.
Qed.

(** X23.  The row of a form submission without an ID photo, column by
    column: the client's identifier, the name, email, phone, date of birth,
    procedure type and site as typed, the signature's storage path, no photo
    path, the aftercare flag, and the server's clock in place of the
    client's. *)
Theorem row_of_a_form_submission (f : form) (random : Z) (png : list byte)
    (ua ts : string) (w : world) (row : gmap string json) :
  clientName f ≠ "" → email f ≠ "" → idFile f = None →
  In (Insert row) (POST w (Resolves (JObj (payload f random png ua ts)))).1 →
  row = list_to_map
          [ ("waiver_id", JStr ("BAT-LOCAL-" +:+ Js.of_int random));
            ("client_name", JStr (clientName f));
            ("email", JStr (email f));
            ("phone", JStr (phone f));
            ("dob", JStr (dob f));
            ("procedure_type", JStr (procedureType_text (procedureType f)));
            ("procedure_site", JStr (procedureSite f));
            ("signature_path",
              JStr ("waivers/" +:+ ("BAT-LOCAL-" +:+ Js.of_int random) +:+ "/"
                    +:+ "signature.png"));
            ("id_photo_front_path", JNull);
            ("send_aftercare", JBool (sendAftercare f));
            ("timestamp_iso", JStr (toISOString w)) ].
Proof.
  intros Hn He Hfile Hin.
  set (body := JObj (payload f random png ua ts)) in *.
  pose proof (payload_valid f random png ua ts Hn He) as Hv. fold body in Hv.
  destruct (inserted_row_inv w body row Hv Hin) as (b1 & u1 & b2 & u2 & E1 & E2 & ->).
  destruct (working_record w body b1 u1 b2 u2 Hv E1 E2) as (Hsame & Hs & Hi).
  assert (Hid : resolve_waiver_id w body = JStr ("BAT-LOCAL-" +:+ Js.of_int random)).
  { unfold resolve_waiver_id, body. cbn [get]. by rewrite payload_waiver_id. }
  assert (Hsig : dataUrlToBytes (get body "signature_png")
                 = Returns (Some {| bytes := png; mime := "image/png" |})).
  { unfold body. cbn [get]. rewrite payload_signature.
    apply (decode_tagged png "image/png"). reflexivity. }
  assert (Hphoto : dataUrlToBytes (get body "id_photo_front") = Returns None).
  { unfold body. cbn [get]. by rewrite payload_id_photo, Hfile. }
  rewrite Hsig in Hs. rewrite Hphoto in Hi. rewrite Hid in Hs |- *.
  destruct Hs as (s & [= <-] & Hpath & _).
  destruct (payload_no_paths f random png ua ts) as [_ Hnone].
  assert (Hkeep : ∀ k, ¬ In k attachment_names →
                       get b2 k = payload f random png ua ts !! k).
  { intros k Hk. by rewrite Hsame. }
  unfold insertPayload.
  rewrite Hpath, Hi.
  rewrite !Hkeep by (unfold attachment_names; cbn; intuition congruence).
  unfold body. cbn [get].
  rewrite payload_client_name, payload_email, payload_send_aftercare, Hnone.
  rewrite payload_phone, payload_dob, payload_procedure_type, payload_procedure_site.
  reflexivity.
Qed.

(** ** Drawing only adds ink *)

Lemma over_alpha_bounds a d :
  0 ≤ a ≤ 255 → 0 ≤ d ≤ 255 → d ≤ over_alpha a d ≤ 255.
Proof.
  intros Ha Hd. unfold over_alpha.
  assert (H1 : d * (255 - a) ≤ 255 * (255 - a)) by nia.
  assert (H2 : 255 * d - 255 * a ≤ d * (255 - a)) by nia.
  Z.to_euclidean_division_equations; lia.
Qed.

Lemma handle_pointer_adds coverage s e :
  (∀ p q i j, 0 ≤ coverage p q i j ≤ 255) →
  (∀ i j, 0 ≤ alpha (pixel (surface s) i j) ≤ 255) →
  width (surface (handle_pointer coverage s e)) = width (surface s)
  ∧ height (surface (handle_pointer coverage s e)) = height (surface s)
  ∧ ∀ i j, alpha (pixel (surface s) i j)
           ≤ alpha (pixel (surface (handle_pointer coverage s e)) i j) ≤ 255.
Proof.
  intros Hc Hs.
  assert (Hsame : ∀ i j, alpha (pixel (surface s) i j)
                         ≤ alpha (pixel (surface s) i j) ≤ 255).
  { intros i j. specialize (Hs i j). lia. }
  destruct e as [x y|x y|]; cbn [handle_pointer]; [done| |done].
  destruct (drawing s); cbn [negb surface]; [|done].
  split; [done|]. split; [done|]. intros i j. cbn [stroke pixel].
  specialize (Hs i j). destruct (coverage _ _ i j =? 0); [lia|]. cbn [alpha].
  apply over_alpha_bounds; [apply Hc|lia].
Qed.

(** X24.  Drawing never erases: with alpha values and coverages in
    0..255, no pointer event lowers the alpha of a pixel, so once
    [hasAnyInk] answers [true] it keeps answering [true] through any further
    pointer events ([resize] and [clear] apart). *)
Theorem drawing_never_erases (coverage : Q * Q → Q * Q → Z → Z → Z)
    (events : list pointer) (s : pad) :
  (∀ p q i j, 0 ≤ coverage p q i j ≤ 255) →
  (∀ i j, 0 ≤ alpha (pixel (surface s) i j) ≤ 255) →
  (∀ i j, alpha (pixel (surface s) i j)
          ≤ alpha (pixel (surface (fold_left (handle_pointer coverage) events s)) i j))
  ∧ (hasAnyInk (surface s) = true →
     hasAnyInk (surface (fold_left (handle_pointer coverage) events s)) = true).
Proof.
  intros Hc. revert s.
  assert (H : ∀ s, (∀ i j, 0 ≤ alpha (pixel (surface s) i j) ≤ 255) →
    width (surface (fold_left (handle_pointer coverage) events s)) = width (surface s)
    ∧ height (surface (fold_left (handle_pointer coverage) events s)) = height (surface s)
    ∧ ∀ i j, alpha (pixel (surface s) i j)
             ≤ alpha (pixel (surface (fold_left (handle_pointer coverage) events s)) i j)).
  { induction events as [|e events IH]; intros s Hs;
      [by split; [|split; [|intros i j; cbn [fold_left]; lia]]|].
    cbn [fold_left].
    destruct (handle_pointer_adds coverage s e Hc Hs) as (Hw & Hh & Ha).
    destruct (IH (handle_pointer coverage s e)) as (Hw' & Hh' & Ha').
    { intros i j. specialize (Ha i j). specialize (Hs i j). lia. }
    split; [congruence|]. split; [congruence|].
    intros i j. specialize (Ha i j). specialize (Ha' i j). lia. }
  intros s Hs. destruct (H s Hs) as (Hw & Hh & Ha). split; [done|].
  rewrite !hasAnyInk_sampled.
  intros (x & y & Hx & Hy & Hxm & Hym & Hpos). exists x, y.
  rewrite Hw, Hh. specialize (Ha x y). repeat split; try tauto; lia.
Qed.

(** ** Instances of the further properties *)

Lemma rejected_upload_aborts_witness :
  valid ann_signed
  ∧ In (Upload "waivers/BAT-LOCAL-4711/signature.png" ["h"; "i"]%byte "image/png")
       (POST storage_down (Resolves ann_signed)).1
  ∧ upload storage_down "waivers/BAT-LOCAL-4711/signature.png" = Rejects "ECONNREFUSED"
  ∧ (POST storage_down (Resolves ann_signed)).2 = server_error
  ∧ inserted (POST storage_down (Resolves ann_signed)).1 = [].
Proof.
  assert (Hin : In (Upload "waivers/BAT-LOCAL-4711/signature.png" ["h"; "i"]%byte
                      "image/png")
                   (POST storage_down (Resolves ann_signed)).1)
    by (vm_compute; left; reflexivity).
  split; [exact ann_signed_valid|]. split; [exact Hin|]. split; [reflexivity|].
  exact (rejected_upload_aborts storage_down ann_signed _ _ _ "ECONNREFUSED"
           ann_signed_valid Hin eq_refl).
Defined.

Lemma failed_insert_no_dispatch_witness :
  valid ann_signed
  ∧ In (Insert (ann_row (JStr "waivers/BAT-LOCAL-4711/signature.png")))
       (POST db_refuses (Resolves ann_signed)).1
  ∧ insert db_refuses (ann_row (JStr "waivers/BAT-LOCAL-4711/signature.png"))
    ≠ Resolves None
  ∧ status (POST db_refuses (Resolves ann_signed)).2 = 500
  ∧ (POST db_refuses (Resolves ann_signed)).2 = db_error_response duplicate_key.
Proof.
  assert (Hin : In (Insert (ann_row (JStr "waivers/BAT-LOCAL-4711/signature.png")))
                   (POST db_refuses (Resolves ann_signed)).1)
    by (vm_compute; right; left; reflexivity).
  assert (Hne : insert db_refuses (ann_row (JStr "waivers/BAT-LOCAL-4711/signature.png"))
                ≠ Resolves None) by discriminate.
  destruct (failed_insert_no_dispatch db_refuses ann_signed _ ann_signed_valid Hin Hne)
    as (T1 & _ & T3).
  split; [exact ann_signed_valid|]. split; [exact Hin|]. split; [exact Hne|].
  split; [exact T1|]. exact (T3 duplicate_key eq_refl).
Defined.

Lemma calm_dispatches :
  In (Fetch ann_mail) (POST calm (Resolves ann_signed)).1.
Proof. rewrite calm_run. right. right. by left. Defined.

Lemma dispatch_follows_insert_witness :
  valid ann_signed
  ∧ In (Fetch ann_mail) (POST calm (Resolves ann_signed)).1
  ∧ ∃ row, In (Insert row) (POST calm (Resolves ann_signed)).1
           ∧ insert calm row = Resolves None.
Proof.
  split; [exact ann_signed_valid|]. split; [exact calm_dispatches|].
  exact (dispatch_follows_insert calm ann_signed ann_mail ann_signed_valid
           calm_dispatches).
Defined.

Lemma answered_mail_keeps_200_witness :
  valid ann_signed
  ∧ get ann_signed "client_name" = Some (JStr "Ann Lee")
  ∧ In (Insert (ann_row (JStr "waivers/BAT-LOCAL-4711/signature.png")))
       (POST mail_refuses (Resolves ann_signed)).1
  ∧ fetch mail_refuses = Resolves unauthorized
  ∧ r_ok unauthorized = false
  ∧ (POST mail_refuses (Resolves ann_signed)).2 = ok_response (JStr "BAT-LOCAL-4711").
Proof.
  assert (Hin : In (Insert (ann_row (JStr "waivers/BAT-LOCAL-4711/signature.png")))
                   (POST mail_refuses (Resolves ann_signed)).1)
    by (vm_compute; right; left; reflexivity).
  split; [exact ann_signed_valid|]. split; [reflexivity|]. split; [exact Hin|].
  split; [reflexivity|]. split; [reflexivity|].
  exact (answered_mail_keeps_200 mail_refuses ann_signed _ "Ann Lee" unauthorized
           ann_signed_valid eq_refl Hin eq_refl eq_refl
           (or_intror (ex_intro _ "Key not found" eq_refl))).
Defined.

Lemma studio_dispatches :
  In (Fetch studio_mail)
     (sendAftercareEmail studio (JStr "ann@example.com") (Some (JStr " Ann  Lee"))).1.
Proof. vm_compute. left. reflexivity. Defined.

Lemma greeting_is_one_word_witness :
  In (Fetch studio_mail)
     (sendAftercareEmail studio (JStr "ann@example.com") (Some (JStr " Ann  Lee"))).1
  ∧ first studio_mail ≠ "".
Proof.
  split; [exact studio_dispatches|].
  exact (proj1 (greeting_is_one_word studio _ _ studio_mail studio_dispatches)).
Defined.

Lemma sender_address_witness :
  In (Fetch studio_mail)
     (sendAftercareEmail studio (JStr "ann@example.com") (Some (JStr " Ann  Lee"))).1
  ∧ FROM_EMAIL studio = Some ("Studio " +:+ "<" +:+ "hello@studio.test" +:+ ">" +:+ "")
  ∧ sender_email studio_mail = "hello@studio.test".
Proof.
  split; [exact studio_dispatches|]. split; [reflexivity|].
  destruct (sender_address studio _ _ studio_mail studio_dispatches) as (_ & T & _).
  apply (T "Studio " "hello@studio.test" ""); [reflexivity..| |reflexivity].
  discriminate.
Defined.

Lemma octets_survive_mime_is_cut_witness :
  Js.includes "," "image/svg+xml;charset=utf-8" = false
  ∧ dataUrlToBytes
      (JStr <$> fileToDataURL
         (Some {| file_bytes := ["h"; "i"]%byte;
                  file_type := "image/svg+xml;charset=utf-8" |}))
    = Returns (Some {| bytes := ["h"; "i"]%byte;
                       mime := nth 0 (Js.split ";" "image/svg+xml;charset=utf-8") "" |}).
Proof.
  split; [reflexivity|]. apply octets_survive_mime_is_cut. reflexivity.
Defined.

Lemma signature_exception_is_500_witness :
  valid garbled
  ∧ dataUrlToBytes (get garbled "signature_png") = Throws InvalidCharacterError
  ∧ POST calm (Resolves garbled) = ([ConsoleError "Handler exception"], server_error).
Proof.
  assert (Hv : valid garbled) by (split; reflexivity).
  assert (Ht : dataUrlToBytes (get garbled "signature_png")
               = Throws InvalidCharacterError) by reflexivity.
  split; [exact Hv|]. split; [exact Ht|].
  exact (signature_exception_is_500 calm garbled _ Hv Ht).
Defined.

Lemma photo_exception_orphans_signature_witness :
  valid ann_bad_photo
  ∧ dataUrlToBytes (get ann_bad_photo "signature_png")
    = Returns (Some {| bytes := ["h"; "i"]%byte; mime := "image/png" |})
  ∧ toString (resolve_waiver_id calm ann_bad_photo) = Some "BAT-LOCAL-4711"
  ∧ dataUrlToBytes (get ann_bad_photo "id_photo_front") = Throws InvalidCharacterError
  ∧ POST calm (Resolves ann_bad_photo)
    = ([ Upload ("waivers/" +:+ "BAT-LOCAL-4711" +:+ "/" +:+ "signature.png")
           ["h"; "i"]%byte "image/png";
         ConsoleError "Handler exception" ],
       server_error).
Proof.
  assert (Hv : valid ann_bad_photo) by (split; reflexivity).
  assert (Hs : dataUrlToBytes (get ann_bad_photo "signature_png")
               = Returns (Some {| bytes := ["h"; "i"]%byte; mime := "image/png" |}))
    by reflexivity.
  assert (Hi : toString (resolve_waiver_id calm ann_bad_photo) = Some "BAT-LOCAL-4711")
    by reflexivity.
  assert (Hp : dataUrlToBytes (get ann_bad_photo "id_photo_front")
               = Throws InvalidCharacterError) by reflexivity.
  split; [exact Hv|]. split; [exact Hs|]. split; [exact Hi|]. split; [exact Hp|].
  exact (photo_exception_orphans_signature calm ann_bad_photo _ _ _ Hv Hs Hi Hp).
Defined.

Lemma id_front_object_name_witness :
  In (Upload "waivers/BAT-LOCAL-4711/id_front.jpeg" ["h"; "i"]%byte "image/jpeg")
     (id_front_step calm (JStr "BAT-LOCAL-4711") ann_photo []).1
  ∧ ∃ s ext, toString (JStr "BAT-LOCAL-4711") = Some s
             ∧ "waivers/BAT-LOCAL-4711/id_front.jpeg"
               = "waivers/" +:+ s +:+ "/" +:+ ("id_front." +:+ ext)
             ∧ ext ≠ "".
Proof.
  assert (Hin : In (Upload "waivers/BAT-LOCAL-4711/id_front.jpeg" ["h"; "i"]%byte
                      "image/jpeg")
                   (id_front_step calm (JStr "BAT-LOCAL-4711") ann_photo []).1)
    by (vm_compute; left; reflexivity).
  split; [exact Hin|].
  destruct (id_front_object_name calm _ _ _ _ _ _ Hin) as (s & ext & T1 & T2 & T3 & _).
  exists s, ext. auto.
Defined.

Lemma moves_while_up_draw_nothing_witness :
  drawing idle_pad = false
  ∧ (∀ e, In e [PointerMove 5 5; PointerUp; PointerMove 9 7] →
          ∀ x y, e ≠ PointerDown x y)
  ∧ surface (fold_left (handle_pointer full_coverage)
               [PointerMove 5 5; PointerUp; PointerMove 9 7] idle_pad)
    = surface idle_pad.
Proof.
  assert (Hno : ∀ e, In e [PointerMove 5 5; PointerUp; PointerMove 9 7] →
                     ∀ x y, e ≠ PointerDown x y).
  { intros e [<- | [<- | [<- | []]]] x y; discriminate. }
  split; [reflexivity|]. split; [exact Hno|].
  exact (proj1 (moves_while_up_draw_nothing full_coverage _ idle_pad eq_refl Hno)).
Defined.

Lemma resize_dimensions_witness :
  0 ≤ parent_clientWidth phone_canvas
  ∧ parent_clientWidth phone_canvas ≤ width (resize phone_canvas)
  ∧ 160 ≤ height (resize phone_canvas).
Proof.
  assert (H : 0 ≤ parent_clientWidth phone_canvas) by discriminate.
  split; [exact H|]. exact (proj1 (resize_dimensions phone_canvas H)).
Defined.

Lemma ann_form_is_sent :
  handleSubmit ann_form (clear phone_canvas) 4711 ["h"; "i"]%byte "Mozilla/5.0"
    "2024-10-27T03:33:19.000Z" = Sent (JObj ann_payload).
Proof. vm_compute. reflexivity. Defined.

Lemma sent_body_passes_the_check_witness :
  handleSubmit ann_form (clear phone_canvas) 4711 ["h"; "i"]%byte "Mozilla/5.0"
    "2024-10-27T03:33:19.000Z" = Sent (JObj ann_payload)
  ∧ valid (JObj ann_payload)
  ∧ resolve_waiver_id calm (JObj ann_payload)
    = JStr ("BAT-LOCAL-" +:+ Js.of_int 4711).
Proof.
  split; [exact ann_form_is_sent|].
  destruct (sent_body_passes_the_check _ _ _ _ _ _ _ calm ann_form_is_sent)
    as (T1 & T2 & _).
  split; [exact T1 | exact T2].
Defined.

Lemma form_attachments_reach_storage_witness :
  clientName ann_form_with_photo ≠ ""
  ∧ email ann_form_with_photo ≠ ""
  ∧ idFile ann_form_with_photo = Some passport_scan
  ∧ Js.includes "," (file_type passport_scan) = false
  ∧ ∃ rest,
      (POST calm
         (Resolves (JObj (payload ann_form_with_photo 4711 ["P"; "N"; "G"]%byte
                            "Mozilla/5.0" "2024-10-27T03:33:19.000Z")))).1
      = Upload ("waivers/" +:+ ("BAT-LOCAL-" +:+ Js.of_int 4711) +:+ "/"
                +:+ "signature.png") ["P"; "N"; "G"]%byte "image/png"
          :: Upload ("waivers/" +:+ ("BAT-LOCAL-" +:+ Js.of_int 4711) +:+ "/"
                     +:+ ("id_front."
                          +:+ ext_of (nth 0 (Js.split ";" (file_type passport_scan)) "")))
               (file_bytes passport_scan)
               (nth 0 (Js.split ";" (file_type passport_scan)) "")
          :: rest.
Proof.
  assert (Hn : clientName ann_form_with_photo ≠ "") by discriminate.
  assert (He : email ann_form_with_photo ≠ "") by discriminate.
  split; [exact Hn|]. split; [exact He|]. split; [reflexivity|].
  split; [reflexivity|].
  exact (form_attachments_reach_storage ann_form_with_photo 4711 ["P"; "N"; "G"]%byte
           "Mozilla/5.0" "2024-10-27T03:33:19.000Z" passport_scan calm
           Hn He eq_refl eq_refl).
Defined.

Lemma no_flag_no_mail_witness :
  truthy (get (JObj (delete "send_aftercare" ann)) "send_aftercare") = false
  ∧ ∀ ev, In ev (POST calm (Resolves (JObj (delete "send_aftercare" ann)))).1 →
          is_fetch ev = false.
Proof.
  split; [reflexivity|]. apply no_flag_no_mail. reflexivity.
Defined.

Lemma unticked_box_gets_no_mail_witness :
  sendAftercare ann_form = false
  ∧ ∀ ev, In ev (POST calm (Resolves (JObj ann_payload))).1 → is_fetch ev = false.
Proof.
  split; [reflexivity|].
  exact (unticked_box_gets_no_mail ann_form 4711 ["h"; "i"]%byte "Mozilla/5.0"
           "2024-10-27T03:33:19.000Z" calm eq_refl).
Defined.

Lemma row_of_a_form_submission_witness :
  clientName ann_form ≠ "" ∧ email ann_form ≠ "" ∧ idFile ann_form = None
  ∧ In (Insert ann_full_row) (POST calm (Resolves (JObj ann_payload))).1
  ∧ ann_full_row !! "phone" = Some (JStr "555-0100").
Proof.
  assert (Hn : clientName ann_form ≠ "") by discriminate.
  assert (He : email ann_form ≠ "") by discriminate.
  assert (Hin : In (Insert ann_full_row) (POST calm (Resolves (JObj ann_payload))).1)
    by (vm_compute; right; left; reflexivity).
  split; [exact Hn|]. split; [exact He|]. split; [reflexivity|]. split; [exact Hin|].
  rewrite (row_of_a_form_submission ann_form 4711 ["h"; "i"]%byte "Mozilla/5.0"
             "2024-10-27T03:33:19.000Z" calm ann_full_row Hn He eq_refl Hin).
  reflexivity.
Defined.

Lemma drawing_never_erases_witness :
  (∀ p q i j, 0 ≤ full_coverage p q i j ≤ 255)
  ∧ (∀ i j, 0 ≤ alpha (pixel (surface idle_pad) i j) ≤ 255)
  ∧ ∀ i j, alpha (pixel (surface idle_pad) i j)
           ≤ alpha (pixel (surface
                             (fold_left (handle_pointer full_coverage)
                                [PointerDown 5 5; PointerMove 9 7] idle_pad)) i j).
Proof.
  assert (Hc : ∀ p q i j, 0 ≤ full_coverage p q i j ≤ 255).
  { intros. split; discriminate. }
  assert (Hs : ∀ i j, 0 ≤ alpha (pixel (surface idle_pad) i j) ≤ 255).
  { intros. split; discriminate. }
  split; [exact Hc|]. split; [exact Hs|].
  exact (proj1 (drawing_never_erases full_coverage _ idle_pad Hc Hs)).
Defined.
